(** * PyBadger: badge settings, logo resolution and badge descriptors

    A shallow embedding of [src/pybadger/badge.py] (class [Badge]) and
    [src/pybadger/shields/badge.py] (class [ShieldsSettings],
    [ShieldsBadge._process_logo] and [ShieldsBadger._shields_settings]),
    with the properties stated about them in the specification. The URL
    builder [create] of that file breaks off in its first statement and
    reads names it does not bind; it is not embedded.

    Python values are dynamically typed; the embedding keeps that where the
    code inspects values at run time ([isinstance], truthiness, [is None])
    and follows the type annotations elsewhere. Dictionaries are [gmap]s:
    Python's [a | b] lets the right operand win, stdpp's union is
    left-biased, so [a | b] is [b ∪ a]. *)

From Stdlib Require Import ZArith NArith Lia.
From Stdlib Require Import Strings.Byte Strings.Ascii Strings.String.
From stdpp Require Import gmap strings list fin_maps.

Local Open Scope string_scope.
Set Warnings "-register-all".

(** ** Python values *)

Module Py.

(** The values that reach the modelled code. [PPath] carries the text of a
    [pathlib.Path], [PURL] the text of a [pylinks.url.URL] object. *)
Inductive pyval : Type :=
| PNone
| PBool (b : bool)
| PInt (z : Z)
| PStr (s : string)
| PBytes (b : list byte)
| PPath (p : string)
| PURL (u : string)
| PTuple (l : list pyval)
| PList (l : list pyval).

(** Truth value testing ([if v], [v or w], [not v]). [Path] and the URL
    class define neither [__bool__] nor [__len__], so instances are true. *)
Definition truthy (v : pyval) : bool :=
  match v with
  | PNone => false
  | PBool b => b
  | PInt z => negb (z =? 0)%Z
  | PStr s => negb (String.eqb s "")
  | PBytes b => match b with [] => false | _ => true end
  | PPath _ => true
  | PURL _ => true
  | PTuple l => match l with [] => false | _ => true end
  | PList l => match l with [] => false | _ => true end
  end.

(** [v is not None] *)
Definition is_not_None (v : pyval) : bool :=
  match v with PNone => false | _ => true end.

(** [a or b] *)
Definition por (a b : pyval) : pyval := if truthy a then a else b.

(** Whether [hash(v)] succeeds: lists are unhashable, a tuple is hashable
    when its items are. *)
Fixpoint hashable (v : pyval) : bool :=
  match v with
  | PList _ => false
  | PTuple l => forallb hashable l
  | _ => true
  end.

(** [type(v)]: the class of a value. *)
Inductive pytype : Type :=
| NoneType
| BoolType
| IntType
| StrType
| BytesType
| PathType
| URLType
| TupleType
| ListType.

Definition type_of (v : pyval) : pytype :=
  match v with
  | PNone => NoneType
  | PBool _ => BoolType
  | PInt _ => IntType
  | PStr _ => StrType
  | PBytes _ => BytesType
  | PPath _ => PathType
  | PURL _ => URLType
  | PTuple _ => TupleType
  | PList _ => ListType
  end.

(** What an exception was raised with. The f-strings of the source are
    kept as their template and what is interpolated into it: the
    extension, and [type(logo)]. *)
Inductive message : Type :=
| NoMessage
| Text (s : string)
| ExtensionNotRecognized (extension : pyval)
| LogoTypeNotRecognized (logo_type : pytype).

Inductive exn : Type :=
| ValueError (m : message)
| TypeError (m : message)
| KeyError (m : message)
| AttributeError (m : message)
| OSError (m : message).

Inductive result (A : Type) : Type :=
| Ok (a : A)
| Raise (e : exn).
Arguments Ok {A} a.
Arguments Raise {A} e.

#[global] Instance result_ret : MRet result := λ A a, Ok a.
#[global] Instance result_bind : MBind result := λ A B k r,
  match r with
  | Ok a => k a
  | Raise e => Raise e
  end.

End Py.
Import Py.

(** ** Base64, as [base64.b64encode(content).decode()] produces it
    (RFC 4648, standard alphabet, [=] padding) *)

Module Base64.

Local Open Scope N_scope.

Definition alphabet : list ascii :=
  list_ascii_of_string
    "ABCDEFGHIJKLMNOPQRSTUVWXYZabcdefghijklmnopqrstuvwxyz0123456789+/".

Definition pad : ascii := "="%char.

Definition char_of (n : N) : ascii := nth (N.to_nat n) alphabet pad.

Fixpoint find_index (c : ascii) (l : list ascii) (i : N) : option N :=
  match l with
  | [] => None
  | d :: l' => if Ascii.eqb c d then Some i else find_index c l' (i + 1)
  end.

Definition index_of (c : ascii) : option N := find_index c alphabet 0.

(** Three octets are cut into four sextets, most significant bits first. *)
Definition sextet0 (x : N) : N := x / 4.
Definition sextet1 (x y : N) : N := (x mod 4) * 16 + y / 16.
Definition sextet2 (y z : N) : N := (y mod 16) * 4 + z / 64.
Definition sextet3 (z : N) : N := z mod 64.

Fixpoint b64encode (content : list byte) : string :=
  match content with
  | [] => ""
  | [a] =>
      let x := Byte.to_N a in
      String (char_of (sextet0 x)) (String (char_of (sextet1 x 0))
        (String pad (String pad "")))
  | [a; b] =>
      let x := Byte.to_N a in
      let y := Byte.to_N b in
      String (char_of (sextet0 x)) (String (char_of (sextet1 x y))
        (String (char_of (sextet2 y 0)) (String pad "")))
  | a :: b :: c :: rest =>
      let x := Byte.to_N a in
      let y := Byte.to_N b in
      let z := Byte.to_N c in
      String (char_of (sextet0 x)) (String (char_of (sextet1 x y))
        (String (char_of (sextet2 y z)) (String (char_of (sextet3 z))
          (b64encode rest))))
  end.

(** The octets back from the sextets. *)
Definition octet0 (s0 s1 : N) : option byte := Byte.of_N (s0 * 4 + s1 / 16).
Definition octet1 (s1 s2 : N) : option byte := Byte.of_N ((s1 mod 16) * 16 + s2 / 4).
Definition octet2 (s2 s3 : N) : option byte := Byte.of_N ((s2 mod 4) * 64 + s3).

(** Strict decoding: groups of four characters of the alphabet, padding
    only in the last group; [None] for anything else. *)
Fixpoint b64decode (s : string) : option (list byte) :=
  match s with
  | EmptyString => Some []
  | String c0 (String c1 (String c2 (String c3 rest))) =>
      if Ascii.eqb c3 pad then
        match rest with
        | EmptyString =>
            if Ascii.eqb c2 pad then
              s0 ← index_of c0; s1 ← index_of c1;
              b0 ← octet0 s0 s1;
              Some [b0]
            else
              s0 ← index_of c0; s1 ← index_of c1; s2 ← index_of c2;
              b0 ← octet0 s0 s1; b1 ← octet1 s1 s2;
              Some [b0; b1]
        | _ => None
        end
      else
        s0 ← index_of c0; s1 ← index_of c1; s2 ← index_of c2; s3 ← index_of c3;
        b0 ← octet0 s0 s1; b1 ← octet1 s1 s2; b2 ← octet2 s2 s3;
        tl ← b64decode rest;
        Some (b0 :: b1 :: b2 :: tl)
  | _ => None
  end.

End Base64.

(** ** Blocking I/O of the logo resolver

    [_pylinks.http.request(url=..., response_type="bytes")] and
    [Path.read_bytes()] are the two collaborators. A [World] answers them;
    every call is recorded in the trace a computation returns. *)

Module IO.

Record World : Type := {
  http_request : pyval → result (list byte);
  read_bytes : string → result (list byte)
}.

Inductive event : Type :=
| HttpRequest (url : pyval)
| ReadBytes (path : string).

Record IO (A : Type) : Type := MkIO { run : World → list event * result A }.
Arguments MkIO {A} run.
Arguments run {A} _ _.

#[global] Instance IO_ret : MRet IO := λ A a, MkIO (λ _, ([], Ok a)).
#[global] Instance IO_bind : MBind IO := λ A B k m,
  MkIO (λ w,
    match run m w with
    | (t, Ok a) => let '(t', r) := run (k a) w in ((t ++ t')%list, r)
    | (t, Raise e) => (t, Raise e)
    end).

Definition raise {A} (e : exn) : IO A := MkIO (λ _, ([], Raise e)).

Definition lift {A} (r : result A) : IO A := MkIO (λ _, ([], r)).

Definition request (url : pyval) : IO (list byte) :=
  MkIO (λ w, ([HttpRequest url], http_request w url)).

Definition read (path : string) : IO (list byte) :=
  MkIO (λ w, ([ReadBytes path], read_bytes w path)).

End IO.
Import IO.

(** ** String methods used by the resolver *)

Module Str.

(** [s.startswith(p)] *)
Definition startswith (p s : string) : bool := String.prefix p s.

(** The text after the last [sep] of [s]; [None] when [sep] does not occur. *)
Fixpoint after_last (sep : ascii) (s : string) : option string :=
  match s with
  | EmptyString => None
  | String c s' =>
      match after_last sep s' with
      | Some t => Some t
      | None => if Ascii.eqb c sep then Some s' else None
      end
  end.

(** [s.rsplit(".", 1)[-1]] *)
Definition rsplit_dot_last (s : string) : string :=
  default s (after_last "."%char s).

(** [Path(p).suffix[1:]]: with [name] the final component and [i] the
    index of its last dot, [name[i+1:]] when [0 < i < len(name) - 1],
    the empty string otherwise. *)
Definition path_suffix_tail (p : string) : string :=
  let name := default p (after_last "/"%char p) in
  match after_last "."%char name with
  | Some t =>
      if (String.length t + 1 <? String.length name)%nat
         && negb (String.eqb t "")
      then t else ""
  | None => ""
  end.

End Str.

(** ** [src/pybadger/shields/badge.py] *)

(** *** [ShieldsSettings] *)

Module ShieldsSettings.

(** The dataclass: nine fields, each defaulting to [None]. *)
Record t : Type := {
  style : pyval;
  color : pyval;
  label : pyval;
  label_color : pyval;
  logo : pyval;
  logo_color : pyval;
  logo_size : pyval;
  logo_width : pyval;
  cache_seconds : pyval
}.

Definition field_names : list string :=
  ["style"; "color"; "label"; "label_color"; "logo"; "logo_color";
   "logo_size"; "logo_width"; "cache_seconds"].

(** [__call__]: [asdict(self)], a dictionary with a key for every field,
    the ones that hold [None] included. *)
Definition __call__ (self : t) : gmap string pyval :=
  <["style" := style self]> (
  <["color" := color self]> (
  <["label" := label self]> (
  <["label_color" := label_color self]> (
  <["logo" := logo self]> (
  <["logo_color" := logo_color self]> (
  <["logo_size" := logo_size self]> (
  <["logo_width" := logo_width self]> (
  <["cache_seconds" := cache_seconds self]> ∅)))))))).

(** The generated [__init__], called with keyword arguments only: a
    keyword that is no field is a [TypeError], a missing one takes the
    default. *)
Definition __init__ (kwargs : gmap string pyval) : result t :=
  if bool_decide (dom kwargs ⊆ list_to_set field_names) then
    Ok {| style := default PNone (kwargs !! "style");
          color := default PNone (kwargs !! "color");
          label := default PNone (kwargs !! "label");
          label_color := default PNone (kwargs !! "label_color");
          logo := default PNone (kwargs !! "logo");
          logo_color := default PNone (kwargs !! "logo_color");
          logo_size := default PNone (kwargs !! "logo_size");
          logo_width := default PNone (kwargs !! "logo_width");
          cache_seconds := default PNone (kwargs !! "cache_seconds") |}
  else Raise (TypeError (Text "got an unexpected keyword argument")).

(** What can stand on the other side of [+]. *)
Inductive operand : Type :=
| ONone
| OSettings (s : t)
| OOther (v : pyval).

Definition only_settings : exn :=
  TypeError (Text "Only ShieldsSettings objects can be added together.").

Definition __add__ (self : t) (other : operand) : result t :=
  match other with
  | ONone => Ok self
  | OOther _ => Raise only_settings
  | OSettings other =>
      (* self() | other() *)
      let kwargs_new := __call__ other ∪ __call__ self in
      __init__ kwargs_new
  end.

Definition __radd__ (self : t) (other : operand) : result t :=
  match other with
  | ONone => Ok self
  | _ => Raise only_settings
  end.

(** [a + b] as Python dispatches it: [a.__add__(b)] when [a] is a
    settings object, else [b.__radd__(a)] when [b] is one. *)
Definition plus (a b : operand) : result t :=
  match a, b with
  | OSettings self, _ => __add__ self b
  | _, OSettings self => __radd__ self a
  | _, _ => Raise (TypeError (Text "unsupported operand type(s) for +"))
  end.

(** The reading of the specification: field by field, the right operand's
    value when it is not [None], else the left operand's. *)
Definition pick (base override : pyval) : pyval :=
  if is_not_None override then override else base.

Definition combine_spec (a b : t) : t :=
  {| style := pick (style a) (style b);
     color := pick (color a) (color b);
     label := pick (label a) (label b);
     label_color := pick (label_color a) (label_color b);
     logo := pick (logo a) (logo b);
     logo_color := pick (logo_color a) (logo_color b);
     logo_size := pick (logo_size a) (logo_size b);
     logo_width := pick (logo_width a) (logo_width b);
     cache_seconds := pick (cache_seconds a) (cache_seconds b) |}.

End ShieldsSettings.

(** *** [ShieldsBadge._process_logo] *)

Module ShieldsBadge.

Definition mime_type : gmap string string :=
  list_to_map [
    ("apng", "image/apng");
    ("avif", "image/avif");
    ("bmp", "image/bmp");
    ("gif", "image/gif");
    ("ico", "image/x-icon");
    ("jpg", "image/jpeg");
    ("jpeg", "image/jpeg");
    ("png", "image/png");
    ("svg", "image/svg+xml");
    ("tif", "image/tiff");
    ("tiff", "image/tiff");
    ("webp", "image/webp")
  ].

(** The keys a value matches: the keys are strings, and no other value
    equals a string. *)
Definition mime_lookup (extension : pyval) : option string :=
  match extension with
  | PStr e => mime_type !! e
  | _ => None
  end.

(** [extension in mime_type] *)
Definition in_mime_type (extension : pyval) : result bool :=
  if hashable extension
  then Ok (bool_decide (is_Some (mime_lookup extension)))
  else Raise (TypeError (Text "unhashable type")).

(** [mime_type[extension]] *)
Definition mime_type_getitem (extension : pyval) : result string :=
  if hashable extension then
    match mime_lookup extension with
    | Some m => Ok m
    | None => Raise (KeyError NoMessage)
    end
  else Raise (TypeError (Text "unhashable type")).

Definition encode_logo (content : list byte) (mime_type : string) : string :=
  "data:" +:+ mime_type +:+ ";base64," +:+ Base64.b64encode content.

(** [logo.rsplit(".", 1)[-1]] and [str(data).rsplit(".", 1)[-1]] *)
Definition rsplit_dot_last (v : pyval) : result pyval :=
  match v with
  | PStr s => Ok (PStr (Str.rsplit_dot_last s))
  | _ => Raise (AttributeError (Text "rsplit"))
  end.

(** [logo.suffix[1:]] *)
Definition suffix_tail (v : pyval) : result pyval :=
  match v with
  | PPath p => Ok (PStr (Str.path_suffix_tail p))
  | _ => Raise (AttributeError (Text "suffix"))
  end.

(** [extension or <inferred>]: the right operand is only evaluated when
    [extension] is false. *)
Definition or_else (extension : pyval) (inferred : result pyval) : result pyval :=
  if truthy extension then Ok extension else inferred.

(** The three lines shared by the fetching branches: check the extension,
    then encode. *)
Definition check_and_encode (content : list byte) (extension : pyval) : IO string :=
  found ← lift (in_mime_type extension);
  if negb found then raise (ValueError (ExtensionNotRecognized extension))
  else
    m ← lift (mime_type_getitem extension);
    mret (encode_logo content m).

Definition _process_logo (logo : pyval) : IO string :=
  '(extension, data) ←
    match logo with
    | PTuple items | PList items =>
        match items with
        | [extension; data] =>
            found ← lift (in_mime_type extension);
            if negb found
            then raise (ValueError (ExtensionNotRecognized extension))
            else mret (extension, data)
        | _ => raise (ValueError NoMessage)
        end
    | _ => mret (PNone, logo)
    end;
  match data with
  | PStr s =>
      if Str.startswith "http://" s || Str.startswith "https://" s then
        content ← request data;
        extension ← lift (or_else extension (rsplit_dot_last logo));
        check_and_encode content extension
      else mret s
  | PBytes b =>
      match extension with
      | PNone => raise (ValueError NoMessage)
      | _ =>
          m ← lift (mime_type_getitem extension);
          mret (encode_logo b m)
      end
  | PPath p =>
      content ← read p;
      extension ← lift (or_else extension (suffix_tail logo));
      check_and_encode content extension
  | PURL u =>
      content ← request data;
      extension ← lift (or_else extension (rsplit_dot_last (PStr u)));
      check_and_encode content extension
  | _ => raise (ValueError (LogoTypeNotRecognized (type_of logo)))
  end.

End ShieldsBadge.

(** ** [src/pybadger/badge.py] *)

Module Badge.

(** [AttrDict = dict[str, str | bool] | None] of [param_type.py]: [None]
    is Python's [None], [Some m] a dictionary. *)
Abbreviation AttrDict := (option (gmap string pyval)).

Record t : Type := {
  src_light : pyval;
  src_dark : pyval;
  image_attributes : AttrDict;
  anchor_attributes : AttrDict;
  picture_attributes : AttrDict;
  src_light_attributes : AttrDict;
  src_dark_attributes : AttrDict;
  default_img_light : bool
}.

(** Truth value of a dictionary or [None]. *)
Definition truthy_attrs (a : AttrDict) : bool :=
  match a with
  | Some m => negb (bool_decide (dom m = ∅))
  | None => false
  end.

(** [a or {}] *)
Definition or_empty (a : AttrDict) : AttrDict :=
  if truthy_attrs a then a else Some ∅.

(** [a | b] *)
Definition dict_or (a b : AttrDict) : result AttrDict :=
  match a, b with
  | Some x, Some y => Ok (Some (y ∪ x))
  | _, _ => Raise (TypeError (Text "unsupported operand type(s) for |"))
  end.

(** [isinstance(a, dict)] *)
Definition is_dict (a : AttrDict) : bool :=
  match a with Some _ => true | None => false end.

Definition __init__ (src_light src_dark : pyval)
    (image_attributes anchor_attributes picture_attributes
     src_light_attributes src_dark_attributes : AttrDict)
    (default_img_light : bool) : t :=
  {| src_light := src_light;
     src_dark := src_dark;
     image_attributes := or_empty image_attributes;
     anchor_attributes := or_empty anchor_attributes;
     picture_attributes := or_empty picture_attributes;
     src_light_attributes := or_empty src_light_attributes;
     src_dark_attributes := or_empty src_dark_attributes;
     default_img_light := default_img_light |}.

(** The five attributes [set] goes through by name. *)
Inductive map_attr : Type :=
| ImageAttributes
| AnchorAttributes
| PictureAttributes
| SrcLightAttributes
| SrcDarkAttributes.

#[global] Instance map_attr_eq_dec : EqDecision map_attr.
Proof. solve_decision. Defined.

Definition getattr (self : t) (attr : map_attr) : AttrDict :=
  match attr with
  | ImageAttributes => image_attributes self
  | AnchorAttributes => anchor_attributes self
  | PictureAttributes => picture_attributes self
  | SrcLightAttributes => src_light_attributes self
  | SrcDarkAttributes => src_dark_attributes self
  end.

Definition setattr (self : t) (attr : map_attr) (value : AttrDict) : t :=
  let upd a := if decide (a = attr) then value else getattr self a in
  {| src_light := src_light self;
     src_dark := src_dark self;
     image_attributes := upd ImageAttributes;
     anchor_attributes := upd AnchorAttributes;
     picture_attributes := upd PictureAttributes;
     src_light_attributes := upd SrcLightAttributes;
     src_dark_attributes := upd SrcDarkAttributes;
     default_img_light := default_img_light self |}.

Definition set_default_img_light (self : t) (value : bool) : t :=
  {| src_light := src_light self;
     src_dark := src_dark self;
     image_attributes := image_attributes self;
     anchor_attributes := anchor_attributes self;
     picture_attributes := picture_attributes self;
     src_light_attributes := src_light_attributes self;
     src_dark_attributes := src_dark_attributes self;
     default_img_light := value |}.

(** The elements of [markitup.html] that [img] builds. *)
Inductive element : Type :=
| Img (src : pyval) (attrs : gmap string pyval)
| Anchor (content : element) (attrs : AttrDict).

(** [_html.img(src=src, **kwargs)]: Python refuses a [kwargs] that is no
    mapping, and one that has the key [src] as well. *)
Definition html_img (src : pyval) (kwargs : AttrDict) : result element :=
  match kwargs with
  | None => Raise (TypeError (Text "argument after ** must be a mapping"))
  | Some m =>
      if bool_decide ("src" ∈ dom m)
      then Raise (TypeError (Text "got multiple values for keyword argument 'src'"))
      else Ok (Img src m)
  end.

(** The [src] of the image an element shows. *)
Fixpoint img_src (e : element) : pyval :=
  match e with
  | Img src _ => src
  | Anchor content _ => img_src content
  end.

Definition img (self : t) (image_attributes anchor_attributes : AttrDict)
    (light : option bool) : result element :=
  let image_attributes :=
    if is_dict image_attributes then image_attributes
    else getattr self ImageAttributes in
  let default_light :=
    match light with
    | Some l => l
    | None => default_img_light self
    end in
  let src :=
    if default_light then src_light self
    else if truthy (src_dark self) then src_dark self else src_light self in
  img ← html_img src image_attributes;
  let a_attrs :=
    if is_dict anchor_attributes then anchor_attributes
    else getattr self AnchorAttributes in
  if negb (truthy_attrs a_attrs) then Ok img
  else Ok (Anchor img a_attrs).

(** One turn of the loop of [set] for a dictionary attribute. The object
    is updated in place: the first component is [self] afterwards, also
    when the turn raises. *)
Definition set_attr_step (args : map_attr → AttrDict)
    (st : t * result unit) (attr : map_attr) : t * result unit :=
  match st with
  | (self, Ok _) =>
      match args attr with
      | None => (self, Ok ())
      | Some value =>
          match dict_or (getattr self attr) (Some value) with
          | Ok new => (setattr self attr new, Ok ())
          | Raise e => (self, Raise e)
          end
      end
  | (self, Raise e) => (self, Raise e)
  end.

Definition set (self : t)
    (image_attributes anchor_attributes picture_attributes
     src_light_attributes src_dark_attributes : AttrDict)
    (default_img_light : option bool) : t * result unit :=
  let args attr :=
    match attr with
    | ImageAttributes => image_attributes
    | AnchorAttributes => anchor_attributes
    | PictureAttributes => picture_attributes
    | SrcLightAttributes => src_light_attributes
    | SrcDarkAttributes => src_dark_attributes
    end in
  let st :=
    foldl (set_attr_step args) (self, Ok ())
      [ImageAttributes; AnchorAttributes; PictureAttributes;
       SrcLightAttributes; SrcDarkAttributes] in
  match st with
  | (self, Ok _) =>
      match default_img_light with
      | Some value => (set_default_img_light self value, Ok ())
      | None => (self, Ok ())
      end
  | (self, Raise e) => (self, Raise e)
  end.

Inductive operand : Type :=
| ONone
| OBadge (b : t)
| OOther (v : pyval).

Definition __add__ (self : t) (other : operand) : result t :=
  match other with
  | ONone => Ok self
  | OOther _ => Raise (TypeError (Text "Only badges can be added to badges."))
  | OBadge other =>
      ia ← dict_or (image_attributes self) (image_attributes other);
      aa ← dict_or (anchor_attributes self) (anchor_attributes other);
      pa ← dict_or (picture_attributes self) (picture_attributes other);
      la ← dict_or (src_light_attributes self) (src_light_attributes other);
      da ← dict_or (src_dark_attributes self) (src_dark_attributes other);
      Ok (__init__
            (por (src_light other) (src_light self))
            (por (src_dark other) (src_dark self))
            ia aa pa la da
            (default_img_light self || default_img_light other))
  end.

(** The invariant: every attribute map is a dictionary. *)
Definition maps_defined (b : t) : Prop :=
  ∀ attr, is_Some (getattr b attr).

(** The descriptors a program gets by constructing, setting and adding. *)
Inductive reachable : t → Prop :=
| reach_init sl sd ia aa pa la da dl :
    reachable (__init__ sl sd ia aa pa la da dl)
| reach_set self ia aa pa la da dl self' r :
    reachable self →
    set self ia aa pa la da dl = (self', r) →
    reachable self'
| reach_add a b c :
    reachable a →
    reachable b →
    __add__ a (OBadge b) = Ok c →
    reachable c.

End Badge.

(** ** Concrete inputs used below *)

Module Examples.

(** A world in which every fetch and every read fails. *)
Definition offline : World :=
  {| http_request := λ _, Raise (OSError NoMessage);
     read_bytes := λ _, Raise (OSError NoMessage) |}.

(** A world that answers every fetch and every read. *)
Definition online : World :=
  {| http_request := λ _, Ok ["a"%byte];
     read_bytes := λ _, Ok ["b"%byte] |}.

Definition png_magic : list byte := ["137"%byte; "P"%byte; "N"%byte; "G"%byte].

Definition blue_only : ShieldsSettings.t :=
  {| ShieldsSettings.style := PNone;
     ShieldsSettings.color := PStr "blue";
     ShieldsSettings.label := PNone;
     ShieldsSettings.label_color := PNone;
     ShieldsSettings.logo := PNone;
     ShieldsSettings.logo_color := PNone;
     ShieldsSettings.logo_size := PNone;
     ShieldsSettings.logo_width := PNone;
     ShieldsSettings.cache_seconds := PNone |}.

Definition pypi_only : ShieldsSettings.t :=
  {| ShieldsSettings.style := PNone;
     ShieldsSettings.color := PNone;
     ShieldsSettings.label := PStr "pypi";
     ShieldsSettings.label_color := PNone;
     ShieldsSettings.logo := PNone;
     ShieldsSettings.logo_color := PNone;
     ShieldsSettings.logo_size := PNone;
     ShieldsSettings.logo_width := PNone;
     ShieldsSettings.cache_seconds := PNone |}.

Definition badge_a : Badge.t :=
  Badge.__init__ (PStr "https://a.example/light.svg") PNone
    (Some {["alt" := PStr "a"]}) None None None None false.

Definition badge_b : Badge.t :=
  Badge.__init__ (PStr "https://b.example/light.svg")
    (PStr "https://b.example/dark.svg")
    (Some (<["alt" := PStr "b"]> {["title" := PStr "b"]}))
    (Some {["href" := PStr "https://b.example"]}) None None None true.

(** [badge_a + badge_b] *)
Definition badge_ab : Badge.t :=
  Badge.__init__ (PStr "https://b.example/light.svg")
    (PStr "https://b.example/dark.svg")
    (Some (<["alt" := PStr "b"]> {["title" := PStr "b"]}))
    (Some {["href" := PStr "https://b.example"]}) None None None true.

End Examples.

(** ** More of [src/pybadger/badge.py]: [picture], and reading what was
    rendered *)

Module BadgeRender.

Import Badge.

(** Whether an element is an anchor around an image. *)
Definition is_anchor (e : element) : bool :=
  match e with
  | Anchor _ _ => true
  | Img _ _ => false
  end.

(** The attributes of the image an element shows. *)
Fixpoint img_attrs (e : element) : gmap string pyval :=
  match e with
  | Img _ attrs => attrs
  | Anchor content _ => img_attrs content
  end.

(** [_html.picture_color_scheme(...)] with its seven positional arguments. *)
Inductive picture_element : Type :=
| PictureColorScheme (src_light src_dark : pyval)
    (picture_attributes src_light_attributes src_dark_attributes
     image_attributes : AttrDict) (default_light : bool).

(** What [picture] returns: the picture, or [_html.a(picture, a_attrs)]. *)
Inductive rendered : Type :=
| Bare (p : picture_element)
| Anchored (p : picture_element) (attrs : AttrDict).

Definition rendered_is_anchor (r : rendered) : bool :=
  match r with
  | Anchored _ _ => true
  | Bare _ => false
  end.

Definition picture_of (r : rendered) : picture_element :=
  match r with
  | Anchored p _ => p
  | Bare p => p
  end.

Definition picture (self : t)
    (image_attributes anchor_attributes picture_attributes
     src_light_attributes src_dark_attributes : AttrDict)
    (default_img_light : option bool) : rendered :=
  let picture :=
    PictureColorScheme
      (src_light self)
      (por (src_dark self) (src_light self))
      (if is_dict picture_attributes then picture_attributes
       else getattr self PictureAttributes)
      (if is_dict src_light_attributes then src_light_attributes
       else getattr self SrcLightAttributes)
      (if is_dict src_dark_attributes then src_dark_attributes
       else getattr self SrcDarkAttributes)
      (if is_dict image_attributes then image_attributes
       else getattr self ImageAttributes)
      (match default_img_light with
       | Some l => l
       | None => Badge.default_img_light self
       end) in
  let a_attrs :=
    if is_dict anchor_attributes then anchor_attributes
    else getattr self AnchorAttributes in
  if negb (truthy_attrs a_attrs) then Bare picture
  else Anchored picture a_attrs.

(** The arguments of [set], by the attribute they are for. *)
Definition set_args (image_attributes anchor_attributes picture_attributes
    src_light_attributes src_dark_attributes : AttrDict)
    (attr : map_attr) : AttrDict :=
  match attr with
  | ImageAttributes => image_attributes
  | AnchorAttributes => anchor_attributes
  | PictureAttributes => picture_attributes
  | SrcLightAttributes => src_light_attributes
  | SrcDarkAttributes => src_dark_attributes
  end.

(** One argument standing for the same argument passed to two calls of
    [set] in a row: the later dictionary wins on a common key, an absent
    one leaves the other. *)
Definition then_arg (first second : AttrDict) : AttrDict :=
  match first, second with
  | Some x, Some y => Some (y ∪ x)
  | None, _ => second
  | _, None => first
  end.

Definition then_flag (first second : option bool) : option bool :=
  match second with
  | Some _ => second
  | None => first
  end.

End BadgeRender.

(** ** [ShieldsBadger] of [src/pybadger/shields/badge.py] *)

Module ShieldsBadger.

Record t : Type := {
  endpoint_start : string;
  endpoint_key : pyval;
  default_shields_settings : option ShieldsSettings.t;
  default_badge_settings : pyval
}.

(** A settings object or [None] as an operand of [+]. *)
Definition operand_of (o : option ShieldsSettings.t) : ShieldsSettings.operand :=
  match o with
  | Some s => ShieldsSettings.OSettings s
  | None => ShieldsSettings.ONone
  end.

(** [setings + self.default_shields_settings if setings else
    self.default_shields_settings]; an instance of the dataclass is true. *)
Definition _shields_settings (self : t) (setings : option ShieldsSettings.t)
    : result (option ShieldsSettings.t) :=
  match setings with
  | Some s =>
      r ← ShieldsSettings.plus (ShieldsSettings.OSettings s)
            (operand_of (default_shields_settings self));
      Ok (Some r)
  | None => Ok (default_shields_settings self)
  end.

End ShieldsBadger.

(** ** Shapes of logo references *)

Module LogoForms.

(** A string the resolver fetches: [data.startswith(("http://", "https://"))] *)
Definition remote (s : string) : bool :=
  Str.startswith "http://" s || Str.startswith "https://" s.

(** The references that are none of the recognised forms and no sequence:
    [None], booleans and integers. *)
Definition unrecognised (v : pyval) : bool :=
  match v with
  | PNone | PBool _ | PInt _ => true
  | _ => false
  end.

(** The I/O a reference asks for, if any. *)
Definition io_of (data : pyval) : list event :=
  match data with
  | PStr s => if remote s then [HttpRequest data] else []
  | PPath p => [ReadBytes p]
  | PURL _ => [HttpRequest data]
  | _ => []
  end.

End LogoForms.

(** ** More concrete inputs *)

Module MoreExamples.

Definition remote_svg : string := "https://example.org/logo.svg".

Definition svg_data_uri : string := "data:image/svg+xml;base64,YQ==".

Definition remote_xyz : string := "https://example.org/logo.xyz".

(** A world in which fetches fail and reads succeed. *)
Definition no_network : World :=
  {| http_request := λ _, Raise (OSError (Text "unreachable"));
     read_bytes := λ _, Ok ["b"%byte] |}.

Definition width_only : gmap string pyval := {["width" := PStr "120"]}.

Definition alt_c : gmap string pyval := {["alt" := PStr "c"]}.

Definition badge_c : Badge.t :=
  Badge.__init__ (PStr "https://c.example/light.svg") PNone
    (Some alt_c) None None None None false.

End MoreExamples.

(** * Properties *)

(** ** Base64 round trip *)

Section Base64Facts.

Import Base64.
Local Open Scope N_scope.

Lemma index_of_char_of (n : N) : n < 64 → index_of (char_of n) = Some n.
Proof.
  intros Hn.
  assert (Hall : forallb (λ k, match index_of (char_of k) with
                               | Some j => N.eqb j k
                               | None => false
                               end)
                   (map N.of_nat (seq 0 64)) = true) by (vm_compute; reflexivity).
  rewrite forallb_forall in Hall.
  specialize (Hall n).
  destruct (index_of (char_of n)) as [j|].
  - f_equal. apply N.eqb_eq, Hall.
    apply in_map_iff. exists (N.to_nat n). split; [lia|].
    apply in_seq. lia.
  - discriminate Hall.
    apply in_map_iff. exists (N.to_nat n). split; [lia|].
    apply in_seq. lia.
Qed.

Lemma char_of_not_pad (n : N) : n < 64 → Ascii.eqb (char_of n) pad = false.
Proof.
  intros Hn. destruct (Ascii.eqb (char_of n) pad) eqn:E; [|reflexivity].
  apply Ascii.eqb_eq in E. pose proof (index_of_char_of n Hn) as H.
  rewrite E in H. vm_compute in H. discriminate H.
Qed.

Ltac sextet_arith :=
  unfold octet0, octet1, octet2, sextet0, sextet1, sextet2, sextet3 in *;
  zify; Z.to_euclidean_division_equations; lia.

Lemma sextet0_lt (x : N) : x < 256 → sextet0 x < 64.
Proof. intros. sextet_arith. Qed.

Lemma sextet1_lt (x y : N) : y < 256 → sextet1 x y < 64.
Proof. intros. sextet_arith. Qed.

Lemma sextet2_lt (y z : N) : z < 256 → sextet2 y z < 64.
Proof. intros. sextet_arith. Qed.

Lemma sextet3_lt (z : N) : sextet3 z < 64.
Proof. sextet_arith. Qed.

Lemma octet0_sextets (x y : N) :
  y < 256 → octet0 (sextet0 x) (sextet1 x y) = Byte.of_N x.
Proof. intros. unfold octet0. f_equal. sextet_arith. Qed.

Lemma octet1_sextets (x y z : N) :
  y < 256 → z < 256 → octet1 (sextet1 x y) (sextet2 y z) = Byte.of_N y.
Proof. intros. unfold octet1. f_equal. sextet_arith. Qed.

Lemma octet2_sextets (y z : N) :
  z < 256 → octet2 (sextet2 y z) (sextet3 z) = Byte.of_N z.
Proof. intros. unfold octet2. f_equal. sextet_arith. Qed.

Lemma to_N_lt (a : byte) : Byte.to_N a < 256.
Proof. pose proof (Byte.to_N_bounded a). lia. Qed.

(** Lists are consumed three octets at a time. *)
Lemma list_ind3 {A} (P : list A → Prop) :
  P [] →
  (∀ a, P [a]) →
  (∀ a b, P [a; b]) →
  (∀ a b c rest, P rest → P (a :: b :: c :: rest)) →
  ∀ l, P l.
Proof.
  intros H0 H1 H2 H3.
  assert (Hall : ∀ l, P l ∧ (∀ a, P (a :: l)) ∧ (∀ a b, P (a :: b :: l))).
  { induction l as [|x l (IH0 & IH1 & IH2)]; [by auto|].
    split; [apply IH1|]. split; [intros; apply IH2|].
    intros a b. by apply H3. }
  intros l. apply Hall.
Qed.

Lemma b64decode_b64encode (content : list byte) :
  b64decode (b64encode content) = Some content.
Proof.
  induction content as [|a|a b|a b c rest IH] using list_ind3.
  - reflexivity.
  - pose proof (to_N_lt a) as Ha.
    cbn [b64encode b64decode].
    rewrite Ascii.eqb_refl.
    rewrite !index_of_char_of by (apply sextet0_lt || apply sextet1_lt; lia).
    cbn [mbind option_bind].
    rewrite octet0_sextets by lia. rewrite Byte.of_to_N. reflexivity.
  - pose proof (to_N_lt a) as Ha. pose proof (to_N_lt b) as Hb.
    cbn [b64encode b64decode].
    rewrite Ascii.eqb_refl.
    rewrite (char_of_not_pad (sextet2 _ 0)) by (apply sextet2_lt; lia).
    rewrite !index_of_char_of
      by (apply sextet0_lt || apply sextet1_lt || apply sextet2_lt; lia).
    cbn [mbind option_bind].
    rewrite octet0_sextets, octet1_sextets by lia.
    rewrite !Byte.of_to_N. reflexivity.
  - pose proof (to_N_lt a) as Ha. pose proof (to_N_lt b) as Hb.
    pose proof (to_N_lt c) as Hc.
    cbn [b64encode b64decode].
    rewrite (char_of_not_pad (sextet3 _)) by apply sextet3_lt.
    rewrite !index_of_char_of
      by (apply sextet0_lt || apply sextet1_lt || apply sextet2_lt
          || apply sextet3_lt; lia).
    cbn [mbind option_bind].
    rewrite octet0_sextets, octet1_sextets, octet2_sextets by lia.
    rewrite !Byte.of_to_N. cbn [mbind option_bind].
    fold b64decode. rewrite IH. reflexivity.
Qed.

End Base64Facts.

(** ** The logo resolver *)

Section LogoFacts.

Import ShieldsBadge Base64 Examples.

Lemma in_mime_type_supported (e m : string) :
  mime_type !! e = Some m → in_mime_type (PStr e) = Ok true.
Proof.
  intros H. unfold in_mime_type, mime_lookup. cbn [hashable].
  rewrite H. rewrite bool_decide_true by eauto. reflexivity.
Qed.

Lemma mime_type_getitem_supported (e m : string) :
  mime_type !! e = Some m → mime_type_getitem (PStr e) = Ok m.
Proof.
  intros H. unfold mime_type_getitem, mime_lookup. cbn [hashable].
  rewrite H. reflexivity.
Qed.

Lemma in_mime_type_unsupported (extension : pyval) :
  hashable extension = true →
  mime_lookup extension = None →
  in_mime_type extension = Ok false.
Proof.
  intros Hh H. unfold in_mime_type. rewrite Hh, H.
  rewrite bool_decide_false; [reflexivity|]. by intros [? ?].
Qed.

(** C4: for every supported extension [e], with MIME type [m], and every
    byte sequence [b], resolving the pair [(e, b)] performs no I/O and
    yields the string [data:m;base64,] followed by the Base64 text of [b],
    and decoding that text gives [b] back. *)
Theorem process_logo_bytes_data_uri (w : World) (e m : string) (b : list byte) :
  mime_type !! e = Some m →
  run (_process_logo (PTuple [PStr e; PBytes b])) w
    = ([], Ok ("data:" +:+ m +:+ ";base64," +:+ b64encode b))
  ∧ b64decode (b64encode b) = Some b.
Proof.
  intros H. split; [|apply b64decode_b64encode].
  unfold _process_logo.
  rewrite (in_mime_type_supported e m H).
  cbn -[mime_type b64encode].
  rewrite H. reflexivity.
Qed.

Lemma process_logo_bytes_data_uri_witness :
  run (_process_logo
         (PTuple [PStr "png"; PBytes png_magic])) offline
    = ([], Ok "data:image/png;base64,iVBORw==")
  ∧ b64decode "iVBORw==" = Some png_magic.
Proof.
  apply (process_logo_bytes_data_uri offline "png" "image/png" png_magic).
  vm_compute. reflexivity.
Defined.

(** C5: for a pair (a tuple or a list of two items) whose extension hint
    is not one of the supported extensions, resolution raises the
    extension-not-recognized [ValueError], and the trace of fetches and
    reads is empty, whatever the second item is. *)
Theorem process_logo_unsupported_extension
    (w : World) (extension data : pyval) :
  hashable extension = true →
  mime_lookup extension = None →
  run (_process_logo (PTuple [extension; data])) w
    = ([], Raise (ValueError (ExtensionNotRecognized extension)))
  ∧ run (_process_logo (PList [extension; data])) w
    = ([], Raise (ValueError (ExtensionNotRecognized extension))).
Proof.
  intros Hh H. unfold _process_logo.
  rewrite (in_mime_type_unsupported extension Hh H).
  split; reflexivity.
Qed.

Lemma process_logo_unsupported_extension_witness :
  run (_process_logo (PTuple [PStr "xyz"; PStr "https://example.org/logo.png"]))
      online
    = ([], Raise (ValueError (ExtensionNotRecognized (PStr "xyz"))))
  ∧ run (_process_logo (PList [PStr "xyz"; PStr "https://example.org/logo.png"]))
      online
    = ([], Raise (ValueError (ExtensionNotRecognized (PStr "xyz")))).
Proof.
  apply (process_logo_unsupported_extension _ (PStr "xyz")).
  - reflexivity.
  - vm_compute. reflexivity.
Defined.

(** C8: resolving raw bytes given without an extension hint raises
    [ValueError()]; nothing is fetched, read or encoded. *)
Theorem process_logo_bytes_without_extension (w : World) (b : list byte) :
  run (_process_logo (PBytes b)) w = ([], Raise (ValueError NoMessage))
  ∧ ∀ s, (run (_process_logo (PBytes b)) w).2 ≠ Ok s.
Proof.
  split; [reflexivity|].
  intros s. discriminate.
Qed.

End LogoFacts.

(** ** Settings combination *)

Section SettingsFacts.

Import ShieldsSettings Examples.

Lemma call_dom (s : t) : dom (__call__ s) = list_to_set field_names.
Proof.
  unfold __call__, field_names. rewrite !dom_insert_L, dom_empty_L.
  cbn [list_to_set foldr]. set_solver.
Qed.

Lemma call_lookup (s : t) :
  __call__ s !! "style" = Some (style s)
  ∧ __call__ s !! "color" = Some (color s)
  ∧ __call__ s !! "label" = Some (label s)
  ∧ __call__ s !! "label_color" = Some (label_color s)
  ∧ __call__ s !! "logo" = Some (logo s)
  ∧ __call__ s !! "logo_color" = Some (logo_color s)
  ∧ __call__ s !! "logo_size" = Some (logo_size s)
  ∧ __call__ s !! "logo_width" = Some (logo_width s)
  ∧ __call__ s !! "cache_seconds" = Some (cache_seconds s).
Proof. unfold __call__. repeat split; by simplify_map_eq. Qed.

(** Every key of [other()] is a key of [self()], so the union is [other()]
    and the sum is a copy of [other]. *)
Lemma add_settings_is_right (a b : t) : __add__ a (OSettings b) = Ok b.
Proof.
  unfold __add__, __init__.
  rewrite bool_decide_true by (rewrite dom_union_L, !call_dom; set_solver).
  destruct (call_lookup b) as (H1 & H2 & H3 & H4 & H5 & H6 & H7 & H8 & H9).
  rewrite !(lookup_union_Some_l _ _ _ _ H1), !(lookup_union_Some_l _ _ _ _ H2),
    !(lookup_union_Some_l _ _ _ _ H3), !(lookup_union_Some_l _ _ _ _ H4),
    !(lookup_union_Some_l _ _ _ _ H5), !(lookup_union_Some_l _ _ _ _ H6),
    !(lookup_union_Some_l _ _ _ _ H7), !(lookup_union_Some_l _ _ _ _ H8),
    !(lookup_union_Some_l _ _ _ _ H9).
  by destruct b.
Qed.

(** C1, at a failing input: [ShieldsSettings(color="blue") +
    ShieldsSettings(label="pypi")] is a copy of the right operand, its
    color [None], where field-wise combination keeps the left operand's
    blue. *)
Theorem add_settings_drops_left_color :
  __add__ blue_only (OSettings pypi_only) = Ok pypi_only
  ∧ color pypi_only = PNone
  ∧ color (combine_spec blue_only pypi_only) = PStr "blue".
Proof.
  split; [apply add_settings_is_right|]. split; reflexivity.
Qed.

(** C7: [a + None] is [a] and [None + b] is [b]. *)
Theorem plus_None_identity (a b : t) :
  plus (OSettings a) ONone = Ok a ∧ plus ONone (OSettings b) = Ok b.
Proof. split; reflexivity. Qed.

End SettingsFacts.

(** ** Badge descriptors *)

Section BadgeFacts.

Import Badge Examples.

Lemma or_empty_Some (m : gmap string pyval) : or_empty (Some m) = Some m.
Proof.
  unfold or_empty, truthy_attrs. case_bool_decide as H; [|reflexivity].
  cbn. f_equal. symmetry. by apply dom_empty_inv_L.
Qed.

Lemma or_empty_is_Some (a : AttrDict) : is_Some (or_empty a).
Proof. unfold or_empty. destruct (truthy_attrs a) eqn:E; [|eauto]. by destruct a. Qed.

Lemma getattr_setattr (self : t) (attr a : map_attr) (value : AttrDict) :
  getattr (setattr self attr value) a
  = if decide (a = attr) then value else getattr self a.
Proof. by destruct a. Qed.

Lemma init_maps_defined sl sd ia aa pa la da dl :
  maps_defined (__init__ sl sd ia aa pa la da dl).
Proof. intros []; apply or_empty_is_Some. Qed.

Lemma dict_or_defined (a b : AttrDict) :
  is_Some a → is_Some b →
  ∃ ma mb, a = Some ma ∧ b = Some mb ∧ dict_or a b = Ok (Some (mb ∪ ma)).
Proof. intros [ma ->] [mb ->]. by exists ma, mb. Qed.

Lemma set_attr_step_defined (args : map_attr → AttrDict) (self : t) (attr : map_attr) :
  maps_defined self →
  ∃ self', set_attr_step args (self, Ok ()) attr = (self', Ok ())
           ∧ maps_defined self'.
Proof.
  intros Hself. unfold set_attr_step.
  destruct (args attr) as [value|]; [|by exists self].
  destruct (dict_or_defined (getattr self attr) (Some value))
    as (ma & mb & Ha & Hb & ->); [apply Hself | by eauto |].
  eexists. split; [reflexivity|].
  intros a. rewrite getattr_setattr. case_decide; [by eauto | apply Hself].
Qed.

Lemma set_maps_defined self ia aa pa la da dl self' r :
  maps_defined self →
  set self ia aa pa la da dl = (self', r) →
  r = Ok () ∧ maps_defined self'.
Proof.
  intros H0. unfold set. cbn [foldl].
  set (args := λ attr : map_attr, match attr with
                 | ImageAttributes => ia
                 | AnchorAttributes => aa
                 | PictureAttributes => pa
                 | SrcLightAttributes => la
                 | SrcDarkAttributes => da
                 end).
  destruct (set_attr_step_defined args self ImageAttributes H0) as (s1 & -> & H1).
  destruct (set_attr_step_defined args s1 AnchorAttributes H1) as (s2 & -> & H2).
  destruct (set_attr_step_defined args s2 PictureAttributes H2) as (s3 & -> & H3).
  destruct (set_attr_step_defined args s3 SrcLightAttributes H3) as (s4 & -> & H4).
  destruct (set_attr_step_defined args s4 SrcDarkAttributes H4) as (s5 & -> & H5).
  destruct dl as [value|]; intros [= <- <-]; split; try reflexivity; [|done].
  intros a. specialize (H5 a). by destruct a.
Qed.

Lemma add_badge_defined (a b : t) :
  maps_defined a → maps_defined b →
  ∃ c, __add__ a (OBadge b) = Ok c
       ∧ maps_defined c
       ∧ ∀ attr, ∃ ma mb,
           getattr a attr = Some ma ∧ getattr b attr = Some mb
           ∧ getattr c attr = Some (mb ∪ ma).
Proof.
  intros Ha Hb. unfold __add__.
  destruct (dict_or_defined (image_attributes a) (image_attributes b)
              (Ha ImageAttributes) (Hb ImageAttributes))
    as (ma1 & mb1 & Ea1 & Eb1 & ->).
  destruct (dict_or_defined (anchor_attributes a) (anchor_attributes b)
              (Ha AnchorAttributes) (Hb AnchorAttributes))
    as (ma2 & mb2 & Ea2 & Eb2 & ->).
  destruct (dict_or_defined (picture_attributes a) (picture_attributes b)
              (Ha PictureAttributes) (Hb PictureAttributes))
    as (ma3 & mb3 & Ea3 & Eb3 & ->).
  destruct (dict_or_defined (src_light_attributes a) (src_light_attributes b)
              (Ha SrcLightAttributes) (Hb SrcLightAttributes))
    as (ma4 & mb4 & Ea4 & Eb4 & ->).
  destruct (dict_or_defined (src_dark_attributes a) (src_dark_attributes b)
              (Ha SrcDarkAttributes) (Hb SrcDarkAttributes))
    as (ma5 & mb5 & Ea5 & Eb5 & ->).
  cbn [mbind result_bind]. eexists. split; [reflexivity|].
  split; [apply init_maps_defined|].
  intros []; cbn [getattr __init__ image_attributes anchor_attributes
                    picture_attributes src_light_attributes src_dark_attributes];
    rewrite or_empty_Some; eauto.
Qed.

Lemma add_badge_Ok (a b c : t) :
  __add__ a (OBadge b) = Ok c →
  ∃ ia aa pa la da,
    c = __init__ (por (src_light b) (src_light a))
                 (por (src_dark b) (src_dark a))
                 ia aa pa la da
                 (default_img_light a || default_img_light b).
Proof.
  unfold __add__.
  destruct (dict_or (image_attributes a) (image_attributes b)) as [ia|];
    [|discriminate].
  destruct (dict_or (anchor_attributes a) (anchor_attributes b)) as [aa|];
    [|discriminate].
  destruct (dict_or (picture_attributes a) (picture_attributes b)) as [pa|];
    [|discriminate].
  destruct (dict_or (src_light_attributes a) (src_light_attributes b)) as [la|];
    [|discriminate].
  destruct (dict_or (src_dark_attributes a) (src_dark_attributes b)) as [da|];
    [|discriminate].
  cbn [mbind result_bind]. intros [= <-]. by exists ia, aa, pa, la, da.
Qed.

(** C2, as stated, fails: both light URLs are present and the sum has the
    right operand's, not the left operand's. *)
Lemma add_badge_light_url_counterexample :
  __add__ badge_a (OBadge badge_b) = Ok badge_ab
  ∧ truthy (src_light badge_a) = true
  ∧ src_light badge_ab ≠ src_light badge_a.
Proof.
  split; [vm_compute; reflexivity|].
  split; [reflexivity | discriminate].
Qed.

(** C2, amended: when two descriptors are added, the light URL of the sum
    is the right operand's when that is true (present and not empty) and
    the left operand's otherwise, likewise the dark URL; the prefer-light
    flag of the sum is the boolean OR of the two flags. *)
Theorem add_badge_urls_and_flag (a b c : t) :
  __add__ a (OBadge b) = Ok c →
  src_light c = (if truthy (src_light b) then src_light b else src_light a)
  ∧ src_dark c = (if truthy (src_dark b) then src_dark b else src_dark a)
  ∧ default_img_light c = default_img_light a || default_img_light b.
Proof.
  intros H. destruct (add_badge_Ok a b c H) as (ia & aa & pa & la & da & ->).
  repeat split.
Qed.

Lemma add_badge_urls_and_flag_witness :
  src_light badge_ab = PStr "https://b.example/light.svg"
  ∧ src_dark badge_ab = PStr "https://b.example/dark.svg"
  ∧ default_img_light badge_ab = true.
Proof.
  apply (add_badge_urls_and_flag badge_a badge_b badge_ab).
  vm_compute. reflexivity.
Defined.

(** C6: for descriptors [a] and [b], each of the five attribute maps of
    [a + b] is the union of the two operands' maps in which [b]'s value
    wins on a key both have, and [a + None] is [a]. *)
Theorem add_badge_attribute_maps (a b : t) :
  maps_defined a → maps_defined b →
  (∃ c, __add__ a (OBadge b) = Ok c
        ∧ ∀ attr, ∃ ma mb mc,
            getattr a attr = Some ma
            ∧ getattr b attr = Some mb
            ∧ getattr c attr = Some mc
            ∧ mc = mb ∪ ma
            ∧ ∀ k, mc !! k = match mb !! k with
                             | Some v => Some v
                             | None => ma !! k
                             end)
  ∧ __add__ a ONone = Ok a.
Proof.
  intros Ha Hb. split; [|reflexivity].
  destruct (add_badge_defined a b Ha Hb) as (c & Hc & _ & Hmaps).
  exists c. split; [exact Hc|].
  intros attr. destruct (Hmaps attr) as (ma & mb & Ea & Eb & Ec).
  exists ma, mb, (mb ∪ ma). repeat split; try assumption.
  intros k. rewrite lookup_union. by destruct (mb !! k), (ma !! k).
Qed.

Lemma add_badge_attribute_maps_witness :
  (∃ c, __add__ badge_a (OBadge badge_b) = Ok c
        ∧ ∀ attr, ∃ ma mb mc,
            getattr badge_a attr = Some ma
            ∧ getattr badge_b attr = Some mb
            ∧ getattr c attr = Some mc
            ∧ mc = mb ∪ ma
            ∧ ∀ k, mc !! k = match mb !! k with
                             | Some v => Some v
                             | None => ma !! k
                             end)
  ∧ __add__ badge_a ONone = Ok badge_a.
Proof.
  apply (add_badge_attribute_maps badge_a badge_b).
  - intros []; vm_compute; eauto.
  - intros []; vm_compute; eauto.
Defined.

(** C9: for a descriptor whose dark URL is absent, whatever the
    prefer-light flag and the [light] argument are, the image [img] returns
    has the light URL as its source; and [img] does return an image when
    the image attributes in force are a dictionary without the key [src]. *)
Theorem img_light_only (self : t) (ia aa : AttrDict) (light : option bool) :
  src_dark self = PNone →
  (∀ e, img self ia aa light = Ok e → img_src e = src_light self)
  ∧ (∀ m, (if is_dict ia then ia else image_attributes self) = Some m →
          "src" ∉ dom m →
          ∃ e, img self ia aa light = Ok e).
Proof.
  intros Hdark. unfold img. rewrite Hdark. cbn [truthy getattr].
  assert (Hsrc : (if match light with
                     | Some l => l
                     | None => default_img_light self
                     end then src_light self else src_light self)
                 = src_light self) by (by destruct light as [[]|], (default_img_light self)).
  rewrite Hsrc. clear Hsrc.
  destruct (if is_dict ia then ia else image_attributes self) as [m|];
    cbn [html_img].
  - case_bool_decide as Hin; cbn [mbind result_bind].
    + split; [discriminate|]. intros m' [= <-] Hn. by destruct Hn.
    + split.
      * intros e He.
        destruct (negb _); injection He as <-; reflexivity.
      * intros _ _ _. destruct (negb _); eauto.
  - cbn [mbind result_bind]. split; [discriminate|]. discriminate.
Qed.

Lemma img_light_only_witness :
  (∀ e, img badge_a None None (Some false) = Ok e →
        img_src e = src_light badge_a)
  ∧ (∀ m, image_attributes badge_a = Some m →
          "src" ∉ dom m →
          ∃ e, img badge_a None None (Some false) = Ok e).
Proof.
  apply (img_light_only badge_a None None (Some false)). reflexivity.
Defined.

(** C10: the five attribute maps of every descriptor obtained by
    construction, [set] and addition are dictionaries, never [None]. *)
Theorem reachable_maps_defined (b : t) : reachable b → maps_defined b.
Proof.
  induction 1 as [sl sd ia aa pa la da dl
                 | self ia aa pa la da dl self' r _ IH Hset
                 | a b c _ IHa _ IHb Hadd].
  - apply init_maps_defined.
  - by destruct (set_maps_defined _ _ _ _ _ _ _ _ _ IH Hset).
  - destruct (add_badge_defined a b IHa IHb) as (c' & Hc & Hdef & _).
    rewrite Hc in Hadd. by injection Hadd as <-.
Qed.

Lemma reachable_maps_defined_witness : maps_defined badge_ab.
Proof.
  apply reachable_maps_defined.
  apply (reach_add badge_a badge_b); [apply reach_init | apply reach_init |].
  vm_compute. reflexivity.
Defined.

End BadgeFacts.

(** ** Running computations with I/O *)

Section IOFacts.

Lemma run_bind {A B} (m : IO A) (k : A → IO B) (w : World) :
  run (m ≫= k) w
  = match run m w with
    | (t, Ok a) => let '(t', r) := run (k a) w in ((t ++ t')%list, r)
    | (t, Raise e) => (t, Raise e)
    end.
Proof. reflexivity. Qed.

Lemma run_ret {A} (a : A) (w : World) : run (mret a) w = ([], Ok a).
Proof. reflexivity. Qed.

End IOFacts.

(** * Further properties *)

(** ** The branches of the logo resolver *)

Section ResolverBranches.

Import ShieldsBadge Base64 Examples MoreExamples LogoForms.

Lemma run_lift {A} (r : result A) (w : World) : run (lift r) w = ([], r).
Proof. reflexivity. Qed.

Lemma run_raise {A} (e : exn) (w : World) :
  run (raise e : IO A) w = ([], Raise e).
Proof. reflexivity. Qed.

Lemma supported_truthy (e m : string) :
  mime_type !! e = Some m → truthy (PStr e) = true.
Proof.
  intros H. destruct e as [|c e]; [|reflexivity].
  vm_compute in H. discriminate H.
Qed.

Lemma run_check_and_encode (content : list byte) (extension : pyval) (w : World) :
  hashable extension = true →
  run (check_and_encode content extension) w
  = ([], match mime_lookup extension with
         | Some m => Ok (encode_logo content m)
         | None => Raise (ValueError (ExtensionNotRecognized extension))
         end).
Proof.
  intros Hh. unfold check_and_encode, in_mime_type, mime_type_getitem.
  rewrite Hh. destruct (mime_lookup extension) as [m|] eqn:E.
  - rewrite bool_decide_true by eauto. reflexivity.
  - rewrite bool_decide_false by (by intros [? ?]). reflexivity.
Qed.

Lemma run_process_logo_remote (s : string) (w : World) :
  remote s = true →
  run (_process_logo (PStr s)) w
  = ([HttpRequest (PStr s)],
     match http_request w (PStr s) with
     | Ok content =>
         match mime_type !! Str.rsplit_dot_last s with
         | Some m => Ok (encode_logo content m)
         | None =>
             Raise (ValueError
                      (ExtensionNotRecognized (PStr (Str.rsplit_dot_last s))))
         end
     | Raise e => Raise e
     end).
Proof.
  unfold remote. intros Hr. unfold _process_logo.
  rewrite run_bind, run_ret. rewrite Hr.
  rewrite run_bind. unfold request at 1. cbn [run].
  destruct (http_request w (PStr s)) as [content|e]; [|reflexivity].
  rewrite run_bind, run_lift. cbn [or_else truthy rsplit_dot_last].
  rewrite run_check_and_encode by reflexivity.
  reflexivity.
Qed.

Lemma run_process_logo_path (p : string) (w : World) :
  run (_process_logo (PPath p)) w
  = ([ReadBytes p],
     match read_bytes w p with
     | Ok content =>
         match mime_type !! Str.path_suffix_tail p with
         | Some m => Ok (encode_logo content m)
         | None =>
             Raise (ValueError
                      (ExtensionNotRecognized (PStr (Str.path_suffix_tail p))))
         end
     | Raise e => Raise e
     end).
Proof.
  unfold _process_logo. rewrite run_bind, run_ret.
  rewrite run_bind. unfold read at 1. cbn [run].
  destruct (read_bytes w p) as [content|e]; [|reflexivity].
  rewrite run_bind, run_lift. cbn [or_else truthy suffix_tail].
  rewrite run_check_and_encode by reflexivity.
  reflexivity.
Qed.

Lemma run_process_logo_url (u : string) (w : World) :
  run (_process_logo (PURL u)) w
  = ([HttpRequest (PURL u)],
     match http_request w (PURL u) with
     | Ok content =>
         match mime_type !! Str.rsplit_dot_last u with
         | Some m => Ok (encode_logo content m)
         | None =>
             Raise (ValueError
                      (ExtensionNotRecognized (PStr (Str.rsplit_dot_last u))))
         end
     | Raise e => Raise e
     end).
Proof.
  unfold _process_logo. rewrite run_bind, run_ret.
  rewrite run_bind. unfold request at 1. cbn [run].
  destruct (http_request w (PURL u)) as [content|e]; [|reflexivity].
  rewrite run_bind, run_lift. cbn [or_else truthy rsplit_dot_last].
  rewrite run_check_and_encode by reflexivity.
  reflexivity.
Qed.

(** A pair with a supported hint: the source is fetched or read as it is
    alone, and the hint decides the MIME type. *)
Lemma run_process_logo_hinted (seq : list pyval → pyval)
    (e m : string) (data : pyval) (w : World) :
  seq = PTuple ∨ seq = PList →
  mime_type !! e = Some m →
  run (_process_logo (seq [PStr e; data])) w
  = match data with
    | PStr s =>
        if remote s then
          ([HttpRequest data],
           match http_request w data with
           | Ok content => Ok (encode_logo content m)
           | Raise x => Raise x
           end)
        else ([], Ok s)
    | PBytes b => ([], Ok (encode_logo b m))
    | PPath p =>
        ([ReadBytes p],
         match read_bytes w p with
         | Ok content => Ok (encode_logo content m)
         | Raise x => Raise x
         end)
    | PURL _ =>
        ([HttpRequest data],
         match http_request w data with
         | Ok content => Ok (encode_logo content m)
         | Raise x => Raise x
         end)
    | _ => ([], Raise (ValueError
                         (LogoTypeNotRecognized (type_of (seq [PStr e; data])))))
    end.
Proof.
  intros Hseq H. pose proof (supported_truthy e m H) as Ht.
  assert (Hce : ∀ content,
             run (check_and_encode content (PStr e)) w
             = ([], Ok (encode_logo content m))).
  { intros content. rewrite run_check_and_encode by reflexivity.
    cbn [mime_lookup]. by rewrite H. }
  destruct Hseq as [-> | ->];
    unfold _process_logo; rewrite run_bind;
    rewrite run_bind, run_lift, (in_mime_type_supported e m H);
    cbn [negb]; rewrite run_ret; cbn [app];
    (destruct data as [|b|z|s|b|p|u|l|l]; try reflexivity).
  all: try (rewrite run_bind, run_lift, (mime_type_getitem_supported e m H);
            reflexivity).
  all: try (fold (remote s); destruct (remote s); [|reflexivity]).
  all: rewrite run_bind; unfold request, read; cbn [run].
  all: match goal with
       | |- context [http_request _ ?d] =>
           destruct (http_request w d) as [content|x]; [|reflexivity]
       | |- context [read_bytes _ ?d] =>
           destruct (read_bytes w d) as [content|x]; [|reflexivity]
       end.
  all: rewrite run_bind, run_lift; unfold or_else; rewrite Ht, Hce;
    reflexivity.
Qed.

Lemma length_append (s t : string) :
  String.length (s +:+ t) = String.length s + String.length t.
Proof. induction s as [|c s IH]; [reflexivity|]. simpl. by rewrite IH. Qed.

Lemma b64encode_length (content : list byte) :
  String.length (b64encode content) = 4 * ((length content + 2) / 3).
Proof.
  induction content as [|a|a b|a b c rest IH] using list_ind3;
    try reflexivity.
  cbn [b64encode String.length length]. rewrite IH.
  replace (S (S (S (length rest))) + 2) with (length rest + 2 + 1 * 3) by lia.
  rewrite Nat.div_add by lia. lia.
Qed.

(** X1: the data URI built for [n] bytes is 13 characters, the MIME type
    and [4 * ceil(n / 3)] characters of Base64 long. *)
Theorem encode_logo_length (content : list byte) (m : string) :
  String.length (encode_logo content m)
  = 13 + String.length m + 4 * ((length content + 2) / 3).
Proof.
  unfold encode_logo. rewrite !length_append, b64encode_length.
  cbn [String.length]. lia.
Qed.

(** X2: a string that starts with neither [http://] nor [https://] is
    returned as it is, without I/O, alone or behind a supported hint. *)
Theorem process_logo_named_icon (w : World) (s e m : string) :
  remote s = false →
  mime_type !! e = Some m →
  run (_process_logo (PStr s)) w = ([], Ok s)
  ∧ run (_process_logo (PTuple [PStr e; PStr s])) w = ([], Ok s).
Proof.
  intros Hr H. split.
  - unfold _process_logo. rewrite run_bind, run_ret.
    fold (remote s). rewrite Hr. reflexivity.
  - rewrite (run_process_logo_hinted PTuple e m) by auto. by rewrite Hr.
Qed.

Lemma process_logo_named_icon_witness :
  run (_process_logo (PStr "npm")) online = ([], Ok "npm")
  ∧ run (_process_logo (PTuple [PStr "png"; PStr "npm"])) online
    = ([], Ok "npm").
Proof.
  apply (process_logo_named_icon online "npm" "png" "image/png").
  - reflexivity.
  - vm_compute. reflexivity.
Defined.

(** X3: for a remote string without a hint, the resolver fetches it once
    and takes the extension from the text after the last dot; when that is
    supported the result is the data URI of the fetched bytes. *)
Theorem process_logo_remote_inferred
    (w : World) (s m : string) (content : list byte) :
  remote s = true →
  http_request w (PStr s) = Ok content →
  mime_type !! Str.rsplit_dot_last s = Some m →
  run (_process_logo (PStr s)) w
  = ([HttpRequest (PStr s)], Ok (encode_logo content m)).
Proof.
  intros Hr Hf Hm. rewrite run_process_logo_remote by exact Hr.
  by rewrite Hf, Hm.
Qed.

Lemma process_logo_remote_inferred_witness :
  run (_process_logo (PStr remote_svg)) online
  = ([HttpRequest (PStr remote_svg)], Ok svg_data_uri).
Proof.
  apply (process_logo_remote_inferred online remote_svg "image/svg+xml"
           ["a"%byte]).
  - reflexivity.
  - reflexivity.
  - vm_compute. reflexivity.
Defined.

(** X4: a remote string whose inferred extension is not supported is
    rejected with the extension-not-recognized [ValueError] only after it
    has been fetched: the trace holds the request. *)
Theorem process_logo_remote_rejected_after_fetch
    (w : World) (s : string) (content : list byte) :
  remote s = true →
  http_request w (PStr s) = Ok content →
  mime_type !! Str.rsplit_dot_last s = None →
  run (_process_logo (PStr s)) w
  = ([HttpRequest (PStr s)],
     Raise (ValueError
              (ExtensionNotRecognized (PStr (Str.rsplit_dot_last s))))).
Proof.
  intros Hr Hf Hm. rewrite run_process_logo_remote by exact Hr.
  by rewrite Hf, Hm.
Qed.

Lemma process_logo_remote_rejected_after_fetch_witness :
  run (_process_logo (PStr remote_xyz)) online
  = ([HttpRequest (PStr remote_xyz)],
     Raise (ValueError (ExtensionNotRecognized (PStr "xyz")))).
Proof.
  apply (process_logo_remote_rejected_after_fetch online remote_xyz
           ["a"%byte]).
  - reflexivity.
  - reflexivity.
  - vm_compute. reflexivity.
Defined.

(** X5: for a path without a hint, the file is read once and the extension
    is the suffix of the final component; the result is the data URI when
    it is supported and the extension-not-recognized [ValueError] when it
    is not, as for a name without a suffix. *)
Theorem process_logo_path_inferred
    (w : World) (p : string) (content : list byte) :
  read_bytes w p = Ok content →
  run (_process_logo (PPath p)) w
  = ([ReadBytes p],
     match mime_type !! Str.path_suffix_tail p with
     | Some m => Ok (encode_logo content m)
     | None =>
         Raise (ValueError
                  (ExtensionNotRecognized (PStr (Str.path_suffix_tail p))))
     end).
Proof. intros Hf. rewrite run_process_logo_path. by rewrite Hf. Qed.

Lemma process_logo_path_inferred_witness :
  run (_process_logo (PPath "/srv/logos/.hidden")) online
  = ([ReadBytes "/srv/logos/.hidden"],
     Raise (ValueError (ExtensionNotRecognized (PStr "")))).
Proof.
  apply (process_logo_path_inferred online "/srv/logos/.hidden" ["b"%byte]).
  reflexivity.
Defined.

(** X6: a supported hint decides the MIME type whatever the suffix of the
    source is: for a remote string, a path and a URL object behind the
    hint [e], the result is the data URI with the MIME type of [e]. *)
Theorem process_logo_hint_overrides (w : World) (e m : string) :
  mime_type !! e = Some m →
  (∀ s content, remote s = true → http_request w (PStr s) = Ok content →
     run (_process_logo (PTuple [PStr e; PStr s])) w
     = ([HttpRequest (PStr s)], Ok (encode_logo content m)))
  ∧ (∀ p content, read_bytes w p = Ok content →
     run (_process_logo (PTuple [PStr e; PPath p])) w
     = ([ReadBytes p], Ok (encode_logo content m)))
  ∧ (∀ u content, http_request w (PURL u) = Ok content →
     run (_process_logo (PTuple [PStr e; PURL u])) w
     = ([HttpRequest (PURL u)], Ok (encode_logo content m))).
Proof.
  intros H. repeat split.
  - intros s content Hr Hf.
    rewrite (run_process_logo_hinted PTuple e m) by auto. by rewrite Hr, Hf.
  - intros p content Hf.
    rewrite (run_process_logo_hinted PTuple e m) by auto. by rewrite Hf.
  - intros u content Hf.
    rewrite (run_process_logo_hinted PTuple e m) by auto. by rewrite Hf.
Qed.

Lemma process_logo_hint_overrides_witness :
  run (_process_logo (PTuple [PStr "svg"; PStr remote_xyz])) online
  = ([HttpRequest (PStr remote_xyz)], Ok svg_data_uri).
Proof.
  assert (H : mime_type !! "svg" = Some "image/svg+xml")
    by (vm_compute; reflexivity).
  destruct (process_logo_hint_overrides online "svg" "image/svg+xml" H)
    as (Hs & _ & _).
  apply (Hs remote_xyz ["a"%byte]); reflexivity.
Defined.

(** X7: a failing fetch or read ends the resolution with the very
    exception the collaborator raised, after that one call. *)
Theorem process_logo_io_failure (w : World) (x : exn) :
  (∀ s, remote s = true → http_request w (PStr s) = Raise x →
     run (_process_logo (PStr s)) w = ([HttpRequest (PStr s)], Raise x))
  ∧ (∀ p, read_bytes w p = Raise x →
     run (_process_logo (PPath p)) w = ([ReadBytes p], Raise x))
  ∧ (∀ u, http_request w (PURL u) = Raise x →
     run (_process_logo (PURL u)) w = ([HttpRequest (PURL u)], Raise x)).
Proof.
  repeat split.
  - intros s Hr Hf. rewrite run_process_logo_remote by exact Hr.
    by rewrite Hf.
  - intros p Hf. rewrite run_process_logo_path. by rewrite Hf.
  - intros u Hf. rewrite run_process_logo_url. by rewrite Hf.
Qed.

(** X8: a tuple or a list that does not have exactly two items raises
    [ValueError()] without I/O. *)
Theorem process_logo_wrong_length (w : World) (items : list pyval) :
  length items ≠ 2 →
  run (_process_logo (PTuple items)) w = ([], Raise (ValueError NoMessage))
  ∧ run (_process_logo (PList items)) w = ([], Raise (ValueError NoMessage)).
Proof.
  intros Hlen.
  destruct items as [|a [|b [|c items]]]; try (by destruct Hlen);
    split; reflexivity.
Qed.

Lemma process_logo_wrong_length_witness :
  run (_process_logo (PTuple [PStr "png"; PBytes png_magic; PNone])) online
  = ([], Raise (ValueError NoMessage))
  ∧ run (_process_logo (PList [PStr "png"; PBytes png_magic; PNone])) online
  = ([], Raise (ValueError NoMessage)).
Proof.
  apply (process_logo_wrong_length online
           [PStr "png"; PBytes png_magic; PNone]).
  cbn. lia.
Defined.

(** X9: [None], a boolean or an integer as the reference raises the
    logo-type-not-recognized [ValueError] without I/O. The error names the
    type of the whole reference: behind a supported hint it names the
    tuple, whatever the second item is. *)
Theorem process_logo_unrecognised (w : World) (v : pyval) (e m : string) :
  unrecognised v = true →
  mime_type !! e = Some m →
  run (_process_logo v) w
    = ([], Raise (ValueError (LogoTypeNotRecognized (type_of v))))
  ∧ run (_process_logo (PTuple [PStr e; v])) w
    = ([], Raise (ValueError (LogoTypeNotRecognized TupleType))).
Proof.
  intros Hv H. split.
  - destruct v; try discriminate Hv; reflexivity.
  - rewrite (run_process_logo_hinted PTuple e m) by auto.
    destruct v; try discriminate Hv; reflexivity.
Qed.

Lemma process_logo_unrecognised_witness :
  run (_process_logo (PInt 3)) online
    = ([], Raise (ValueError (LogoTypeNotRecognized (type_of (PInt 3)))))
  ∧ run (_process_logo (PTuple [PStr "png"; PInt 3])) online
    = ([], Raise (ValueError (LogoTypeNotRecognized TupleType))).
Proof.
  apply (process_logo_unrecognised online (PInt 3) "png" "image/png").
  - reflexivity.
  - vm_compute. reflexivity.
Defined.

Lemma process_logo_io_failure_witness :
  run (_process_logo (PStr remote_svg)) no_network
  = ([HttpRequest (PStr remote_svg)], Raise (OSError (Text "unreachable"))).
Proof.
  destruct (process_logo_io_failure no_network (OSError (Text "unreachable")))
    as (Hs & _ & _).
  apply (Hs remote_svg); reflexivity.
Defined.

Lemma in_mime_type_true (extension : pyval) :
  in_mime_type extension = Ok true →
  ∃ e m, extension = PStr e ∧ mime_type !! e = Some m.
Proof.
  unfold in_mime_type. destruct (hashable extension); [|discriminate].
  intros [= H]. apply bool_decide_eq_true in H as [m Hm].
  destruct extension; try discriminate Hm. eauto.
Qed.

(** Every resolution is of one of four kinds: an error before any I/O, a
    named icon handed back, bytes behind a hint encoded, or one fetch or
    read whose result, if any, is a data URI. *)
Lemma process_logo_cases (logo : pyval) (w : World) :
  (∃ x, run (_process_logo logo) w = ([], Raise x))
  ∨ (∃ s, remote s = false
          ∧ run (_process_logo logo) w = ([], Ok s)
          ∧ (logo = PStr s
             ∨ ∃ seq e, (seq = PTuple ∨ seq = PList)
                        ∧ logo = seq [PStr e; PStr s]))
  ∨ (∃ e m b, mime_type !! e = Some m
              ∧ run (_process_logo logo) w = ([], Ok (encode_logo b m)))
  ∨ (∃ ev r, run (_process_logo logo) w = ([ev], r)
             ∧ ∀ s, r = Ok s →
                 ∃ e m content,
                   mime_type !! e = Some m ∧ s = encode_logo content m).
Proof.
  assert (Hfetched : ∀ (f : result (list byte)) (e : string) (s : string),
            match f with
            | Ok content =>
                match mime_type !! e with
                | Some m => Ok (encode_logo content m)
                | None => Raise (ValueError (ExtensionNotRecognized (PStr e)))
                end
            | Raise x => Raise x
            end = Ok s →
            ∃ e m content, mime_type !! e = Some m ∧ s = encode_logo content m).
  { intros [content|x] e s; [|discriminate].
    destruct (mime_type !! e) as [m|] eqn:E; [|discriminate].
    intros [= <-]. eauto. }
  assert (Hhinted : ∀ (f : result (list byte)) (e m : string) (s : string),
            mime_type !! e = Some m →
            match f with
            | Ok content => Ok (encode_logo content m)
            | Raise x => Raise x
            end = Ok s →
            ∃ e m content, mime_type !! e = Some m ∧ s = encode_logo content m).
  { intros [content|x] e m s H; [|discriminate]. intros [= <-]. eauto. }
  assert (Hseq : ∀ seq items, seq = PTuple ∨ seq = PList →
            (∃ x, run (_process_logo (seq items)) w = ([], Raise x))
            ∨ (∃ s, remote s = false
                    ∧ run (_process_logo (seq items)) w = ([], Ok s)
                    ∧ (seq items = PStr s
                       ∨ ∃ seq' e, (seq' = PTuple ∨ seq' = PList)
                                   ∧ seq items = seq' [PStr e; PStr s]))
            ∨ (∃ e m b, mime_type !! e = Some m
                        ∧ run (_process_logo (seq items)) w
                          = ([], Ok (encode_logo b m)))
            ∨ (∃ ev r, run (_process_logo (seq items)) w = ([ev], r)
                       ∧ ∀ s, r = Ok s →
                           ∃ e m content,
                             mime_type !! e = Some m
                             ∧ s = encode_logo content m)).
  { intros seq items Hs.
    destruct items as [|extension [|data [|c items]]];
      try (left; destruct Hs as [-> | ->]; eexists; reflexivity).
    destruct (in_mime_type extension) as [[|]|x] eqn:E.
    - destruct (in_mime_type_true extension E) as (e & m & -> & Hm).
      rewrite (run_process_logo_hinted seq e m data w Hs Hm).
      destruct data as [|b|z|s|b|p|u|l|l];
        try (left; eexists; reflexivity).
      + destruct (remote s) eqn:Hr.
        * do 3 right. do 2 eexists. split; [reflexivity|].
          intros s'. by apply Hhinted with e.
        * right. left. exists s. split; [exact Hr|]. split; [reflexivity|].
          right. by exists seq, e.
      + right. right. left. by exists e, m, b.
      + do 3 right. do 2 eexists. split; [reflexivity|].
        intros s'. by apply Hhinted with e.
      + do 3 right. do 2 eexists. split; [reflexivity|].
        intros s'. by apply Hhinted with e.
    - left. destruct Hs as [-> | ->]; unfold _process_logo;
        rewrite run_bind, run_bind, run_lift, E; eexists; reflexivity.
    - left. destruct Hs as [-> | ->]; unfold _process_logo;
        rewrite run_bind, run_bind, run_lift, E; eexists; reflexivity. }
  destruct logo as [|b|z|s|b|p|u|l|l];
    try (left; eexists; reflexivity).
  - destruct (remote s) eqn:Hr.
    + do 3 right. rewrite run_process_logo_remote by exact Hr.
      do 2 eexists. split; [reflexivity|]. intros s'. apply Hfetched.
    + right. left. exists s. split; [exact Hr|]. split; [|by left].
      unfold _process_logo. rewrite run_bind, run_ret.
      fold (remote s). by rewrite Hr.
  - do 3 right. rewrite run_process_logo_path.
    do 2 eexists. split; [reflexivity|]. intros s'. apply Hfetched.
  - do 3 right. rewrite run_process_logo_url.
    do 2 eexists. split; [reflexivity|]. intros s'. apply Hfetched.
  - apply Hseq. by left.
  - apply Hseq. by right.
Qed.

(** X10: a resolution calls the collaborators at most once, whatever the
    reference and the answers are. *)
Theorem process_logo_at_most_one_io (logo : pyval) (w : World) :
  (length (run (_process_logo logo) w).1 ≤ 1)%nat.
Proof.
  destruct (process_logo_cases logo w)
    as [(x & ->) | [(s & _ & -> & _) | [(e & m & b & _ & ->)
       | (ev & r & -> & _)]]]; cbn; lia.
Qed.

(** X11: what a resolution returns is either the named icon it was given,
    without I/O, or a data URI whose MIME type is one of the table. *)
Theorem process_logo_result_shape
    (logo : pyval) (w : World) (trace : list event) (s : string) :
  run (_process_logo logo) w = (trace, Ok s) →
  (remote s = false ∧ trace = []
   ∧ (logo = PStr s
      ∨ ∃ seq e, (seq = PTuple ∨ seq = PList) ∧ logo = seq [PStr e; PStr s]))
  ∨ (∃ e m content, mime_type !! e = Some m ∧ s = encode_logo content m).
Proof.
  intros Hrun.
  destruct (process_logo_cases logo w)
    as [(x & H) | [(s' & Hr & H & Hl) | [(e & m & b & Hm & H)
       | (ev & r & H & Hs)]]];
    rewrite H in Hrun.
  - discriminate Hrun.
  - injection Hrun as <- <-. by left.
  - injection Hrun as <- <-. right. eauto.
  - injection Hrun as <- ->. right. by apply Hs.
Qed.

Lemma process_logo_result_shape_witness :
  (remote svg_data_uri = false ∧ [HttpRequest (PStr remote_svg)] = []
   ∧ (PStr remote_svg = PStr svg_data_uri
      ∨ ∃ seq e, (seq = PTuple ∨ seq = PList)
                 ∧ PStr remote_svg = seq [PStr e; PStr svg_data_uri]))
  ∨ (∃ e m content,
       mime_type !! e = Some m ∧ svg_data_uri = encode_logo content m).
Proof.
  apply (process_logo_result_shape (PStr remote_svg) online).
  vm_compute. reflexivity.
Defined.

End ResolverBranches.

(** ** Settings objects and the badger's defaults *)

Section SettingsMore.

Import ShieldsSettings Examples.

(** X12: building a settings object from the dictionary of another gives
    that object back: [ShieldsSettings] applied to the keywords [s()] is
    [s]. *)
Theorem init_call_round_trip (s : t) : __init__ (__call__ s) = Ok s.
Proof.
  unfold __init__.
  rewrite bool_decide_true by (rewrite call_dom; set_solver).
  destruct (call_lookup s) as (H1 & H2 & H3 & H4 & H5 & H6 & H7 & H8 & H9).
  rewrite H1, H2, H3, H4, H5, H6, H7, H8, H9. by destruct s.
Qed.

(** X13: the sum of two settings objects is the right operand, field by
    field, also where the right operand holds [None]; no field of the left
    operand shows in the sum. *)
Theorem add_settings_right_operand (a b : t) :
  plus (OSettings a) (OSettings b) = Ok b.
Proof. cbn [plus]. apply add_settings_is_right. Qed.

(** X14: the settings a badger uses for a badge are its defaults whenever
    it has defaults, whatever settings the call passes; the settings of
    the call are used only when the badger has no defaults. *)
Theorem shields_settings_defaults_win
    (self : ShieldsBadger.t) (setings : option t) :
  ShieldsBadger._shields_settings self setings
  = Ok (match ShieldsBadger.default_shields_settings self with
        | Some d => Some d
        | None => setings
        end).
Proof.
  unfold ShieldsBadger._shields_settings.
  destruct setings as [s|],
    (ShieldsBadger.default_shields_settings self) as [d|];
    try reflexivity.
  cbn [ShieldsBadger.operand_of plus]. by rewrite add_settings_is_right.
Qed.

End SettingsMore.

(** ** Setting, adding and rendering descriptors *)

Section BadgeMore.

Import Badge BadgeRender Examples MoreExamples.

Lemma badge_ext (a b : t) :
  src_light a = src_light b →
  src_dark a = src_dark b →
  default_img_light a = default_img_light b →
  (∀ attr, getattr a attr = getattr b attr) →
  a = b.
Proof.
  intros Hl Hd Hf Hm.
  pose proof (Hm ImageAttributes) as H1. pose proof (Hm AnchorAttributes) as H2.
  pose proof (Hm PictureAttributes) as H3.
  pose proof (Hm SrcLightAttributes) as H4.
  pose proof (Hm SrcDarkAttributes) as H5.
  destruct a, b. cbn in *. by subst.
Qed.

Lemma set_attr_step_spec (args : map_attr → AttrDict) (self : t) (attr : map_attr) :
  maps_defined self →
  ∃ self', set_attr_step args (self, Ok ()) attr = (self', Ok ())
    ∧ maps_defined self'
    ∧ src_light self' = src_light self
    ∧ src_dark self' = src_dark self
    ∧ default_img_light self' = default_img_light self
    ∧ ∀ a, getattr self' a
           = if decide (a = attr)
             then then_arg (getattr self attr) (args attr)
             else getattr self a.
Proof.
  intros Hself. unfold set_attr_step.
  destruct (Hself attr) as [m Hm].
  destruct (args attr) as [value|].
  - rewrite Hm. cbn [dict_or]. eexists. split; [reflexivity|].
    split; [|repeat split].
    + intros a. rewrite getattr_setattr. case_decide; [by eauto | apply Hself].
    + intros a. rewrite getattr_setattr. reflexivity.
  - exists self. repeat split; [exact Hself|].
    intros a. case_decide as E; [|reflexivity]. subst a. by rewrite Hm.
Qed.

Lemma set_spec self ia aa pa la da dl self' r :
  maps_defined self →
  set self ia aa pa la da dl = (self', r) →
  r = Ok ()
  ∧ src_light self' = src_light self
  ∧ src_dark self' = src_dark self
  ∧ default_img_light self' = default (default_img_light self) dl
  ∧ ∀ attr, getattr self' attr
            = then_arg (getattr self attr) (set_args ia aa pa la da attr).
Proof.
  intros H0. unfold set. cbn [foldl].
  change (λ attr : map_attr, match attr with
            | ImageAttributes => ia
            | AnchorAttributes => aa
            | PictureAttributes => pa
            | SrcLightAttributes => la
            | SrcDarkAttributes => da
            end) with (set_args ia aa pa la da).
  set (args := set_args ia aa pa la da).
  destruct (set_attr_step_spec args self ImageAttributes H0)
    as (s1 & -> & H1 & L1 & D1 & F1 & G1).
  destruct (set_attr_step_spec args s1 AnchorAttributes H1)
    as (s2 & -> & H2 & L2 & D2 & F2 & G2).
  destruct (set_attr_step_spec args s2 PictureAttributes H2)
    as (s3 & -> & H3 & L3 & D3 & F3 & G3).
  destruct (set_attr_step_spec args s3 SrcLightAttributes H3)
    as (s4 & -> & H4 & L4 & D4 & F4 & G4).
  destruct (set_attr_step_spec args s4 SrcDarkAttributes H4)
    as (s5 & -> & H5 & L5 & D5 & F5 & G5).
  assert (G : ∀ attr, getattr s5 attr
                      = then_arg (getattr self attr) (args attr)).
  { intros attr. rewrite G5, G4, G3, G2, G1.
    destruct (H0 attr) as [m Hm].
    destruct attr; cbn [decide decide_rel map_attr_eq_dec];
      repeat (case_decide; try discriminate; try done);
      rewrite ?G4, ?G3, ?G2, ?G1;
      repeat (case_decide; try discriminate; try done). }
  destruct dl as [value|]; intros [= <- <-];
    (split; [reflexivity|]);
    (split; [cbn; congruence|]);
    (split; [cbn; congruence|]);
    (split; [cbn; congruence|]);
    intros attr; rewrite <- G; by destruct attr.
Qed.

Lemma then_arg_assoc (m : gmap string pyval) (x y : AttrDict) :
  then_arg (then_arg (Some m) x) y = then_arg (Some m) (then_arg x y).
Proof.
  destruct x as [x|], y as [y|]; cbn; try reflexivity.
  by rewrite (assoc_L (∪)).
Qed.

(** X15: on a descriptor whose maps are dictionaries [set] returns [None]
    and leaves the URLs as they are; each map given is merged into the
    stored one, the given value winning on a common key; a map not given
    is untouched; the flag is replaced when given. *)
Theorem set_merges_arguments self ia aa pa la da dl self' r :
  maps_defined self →
  set self ia aa pa la da dl = (self', r) →
  r = Ok ()
  ∧ src_light self' = src_light self
  ∧ src_dark self' = src_dark self
  ∧ default_img_light self' = default (default_img_light self) dl
  ∧ ∀ attr, ∃ m, getattr self attr = Some m
      ∧ getattr self' attr
        = match set_args ia aa pa la da attr with
          | Some value => Some (value ∪ m)
          | None => Some m
          end.
Proof.
  intros H0 Hset.
  destruct (set_spec _ _ _ _ _ _ _ _ _ H0 Hset) as (Hr & Hl & Hd & Hf & Hg).
  repeat split; try assumption.
  intros attr. destruct (H0 attr) as [m Hm]. exists m. split; [exact Hm|].
  rewrite Hg, Hm. by destruct (set_args ia aa pa la da attr).
Qed.

Lemma set_merges_arguments_witness :
  (set badge_a (Some width_only) None None None None (Some true)).2 = Ok ()
  ∧ src_light
      (set badge_a (Some width_only) None None None None (Some true)).1
    = src_light badge_a
  ∧ src_dark
      (set badge_a (Some width_only) None None None None (Some true)).1
    = src_dark badge_a
  ∧ default_img_light
      (set badge_a (Some width_only) None None None None (Some true)).1
    = true
  ∧ ∀ attr, ∃ m, getattr badge_a attr = Some m
      ∧ getattr
          (set badge_a (Some width_only) None None None None (Some true)).1
          attr
        = match set_args (Some width_only) None None None None attr with
          | Some value => Some (value ∪ m)
          | None => Some m
          end.
Proof.
  apply (set_merges_arguments badge_a (Some width_only) None None None None
           (Some true)).
  - apply init_maps_defined.
  - vm_compute. reflexivity.
Defined.

Lemma set_attr_step_urls (args : map_attr → AttrDict)
    (st : t * result unit) (attr : map_attr) :
  src_light (set_attr_step args st attr).1 = src_light st.1
  ∧ src_dark (set_attr_step args st attr).1 = src_dark st.1.
Proof.
  destruct st as [self [[]|e]]; cbn [set_attr_step fst]; [|done].
  destruct (args attr) as [value|]; [|done].
  by destruct (dict_or (getattr self attr) (Some value)).
Qed.

(** X16: [set] never changes the light URL or the dark URL, on any
    descriptor and with any arguments, also when it raises. *)
Theorem set_keeps_urls self ia aa pa la da dl :
  src_light (set self ia aa pa la da dl).1 = src_light self
  ∧ src_dark (set self ia aa pa la da dl).1 = src_dark self.
Proof.
  unfold set. cbn [foldl].
  set (args := λ attr : map_attr, match attr with
                 | ImageAttributes => ia
                 | AnchorAttributes => aa
                 | PictureAttributes => pa
                 | SrcLightAttributes => la
                 | SrcDarkAttributes => da
                 end).
  set (st1 := set_attr_step args (self, Ok ()) ImageAttributes).
  set (st2 := set_attr_step args st1 AnchorAttributes).
  set (st3 := set_attr_step args st2 PictureAttributes).
  set (st4 := set_attr_step args st3 SrcLightAttributes).
  set (st5 := set_attr_step args st4 SrcDarkAttributes).
  destruct (set_attr_step_urls args (self, Ok ()) ImageAttributes) as [L1 D1].
  destruct (set_attr_step_urls args st1 AnchorAttributes) as [L2 D2].
  destruct (set_attr_step_urls args st2 PictureAttributes) as [L3 D3].
  destruct (set_attr_step_urls args st3 SrcLightAttributes) as [L4 D4].
  destruct (set_attr_step_urls args st4 SrcDarkAttributes) as [L5 D5].
  fold st1 in L1, D1. fold st2 in L2, D2. fold st3 in L3, D3.
  fold st4 in L4, D4. fold st5 in L5, D5.
  cbn [fst] in L1, D1.
  assert (Hl : src_light st5.1 = src_light self) by congruence.
  assert (Hd : src_dark st5.1 = src_dark self) by congruence.
  clearbody st5. clear - Hl Hd.
  destruct st5 as [s5 [[]|e]]; [|done].
  by destruct dl.
Qed.

(** X17: two calls of [set] in a row on a descriptor whose maps are
    dictionaries leave it as one call does that passes, for each map, the
    two dictionaries merged with the later one winning, and the later flag
    if given, else the earlier. *)
Theorem set_twice self ia aa pa la da dl ia' aa' pa' la' da' dl' s1 r1 s2 r2 :
  maps_defined self →
  set self ia aa pa la da dl = (s1, r1) →
  set s1 ia' aa' pa' la' da' dl' = (s2, r2) →
  set self (then_arg ia ia') (then_arg aa aa') (then_arg pa pa')
      (then_arg la la') (then_arg da da') (then_flag dl dl')
  = (s2, Ok ()).
Proof.
  intros H0 Hset1 Hset2.
  destruct (set_spec _ _ _ _ _ _ _ _ _ H0 Hset1) as (_ & L1 & D1 & F1 & G1).
  destruct (set_maps_defined _ _ _ _ _ _ _ _ _ H0 Hset1) as [_ H1].
  destruct (set_spec _ _ _ _ _ _ _ _ _ H1 Hset2) as (_ & L2 & D2 & F2 & G2).
  destruct (set self (then_arg ia ia') (then_arg aa aa') (then_arg pa pa')
              (then_arg la la') (then_arg da da') (then_flag dl dl'))
    as [s3 r3] eqn:Hset3.
  destruct (set_spec _ _ _ _ _ _ _ _ _ H0 Hset3) as (-> & L3 & D3 & F3 & G3).
  f_equal. apply badge_ext; try congruence.
  - rewrite F3, F2, F1. by destruct dl, dl'.
  - intros attr. rewrite G3, G2, G1.
    destruct (H0 attr) as [m ->]. rewrite then_arg_assoc.
    by destruct attr.
Qed.

Lemma set_twice_witness :
  set badge_a (then_arg (Some width_only) (Some alt_c)) (then_arg None None)
      (then_arg None None) (then_arg None None) (then_arg None None)
      (then_flag (Some true) None)
  = ((set (set badge_a (Some width_only) None None None None (Some true)).1
          (Some alt_c) None None None None None).1, Ok ()).
Proof.
  apply (set_twice badge_a (Some width_only) None None None None (Some true)
           (Some alt_c) None None None None None
           (set badge_a (Some width_only) None None None None (Some true)).1
           (Ok ())
           _ (Ok ())).
  - apply init_maps_defined.
  - vm_compute. reflexivity.
  - vm_compute. reflexivity.
Defined.

Lemma por_assoc (x y z : pyval) : por x (por y z) = por (por x y) z.
Proof.
  unfold por. destruct (truthy x) eqn:Ex; [by rewrite Ex|].
  by destruct (truthy y) eqn:Ey.
Qed.

Lemma por_diag (x : pyval) : por x x = x.
Proof. unfold por. by destruct (truthy x). Qed.

Lemma add_badge_spec (a b : t) :
  maps_defined a → maps_defined b →
  ∃ c, __add__ a (OBadge b) = Ok c
       ∧ maps_defined c
       ∧ src_light c = por (src_light b) (src_light a)
       ∧ src_dark c = por (src_dark b) (src_dark a)
       ∧ default_img_light c = default_img_light a || default_img_light b
       ∧ ∀ attr, ∃ ma mb,
           getattr a attr = Some ma ∧ getattr b attr = Some mb
           ∧ getattr c attr = Some (mb ∪ ma).
Proof.
  intros Ha Hb.
  destruct (add_badge_defined a b Ha Hb) as (c & Hc & Hdef & Hmaps).
  exists c. split; [exact Hc|]. split; [exact Hdef|].
  destruct (add_badge_Ok a b c Hc) as (ia & aa & pa & la & da & E).
  rewrite E in *. by repeat split.
Qed.

(** X18: adding descriptors whose maps are dictionaries is associative:
    [(a + b) + c] and [a + (b + c)] are the same descriptor. *)
Theorem add_badge_assoc (a b c : t) :
  maps_defined a → maps_defined b → maps_defined c →
  ∃ ab bc abc,
    __add__ a (OBadge b) = Ok ab
    ∧ __add__ b (OBadge c) = Ok bc
    ∧ __add__ ab (OBadge c) = Ok abc
    ∧ __add__ a (OBadge bc) = Ok abc.
Proof.
  intros Ha Hb Hc.
  destruct (add_badge_spec a b Ha Hb) as (ab & Eab & Hab & L1 & D1 & F1 & G1).
  destruct (add_badge_spec b c Hb Hc) as (bc & Ebc & Hbc & L2 & D2 & F2 & G2).
  destruct (add_badge_spec ab c Hab Hc) as (l & El & Hl & L3 & D3 & F3 & G3).
  destruct (add_badge_spec a bc Ha Hbc) as (r & Er & Hr & L4 & D4 & F4 & G4).
  exists ab, bc, l. repeat split; try assumption.
  rewrite Er. f_equal. apply badge_ext.
  - rewrite L4, L3, L2, L1. symmetry. apply por_assoc.
  - rewrite D4, D3, D2, D1. symmetry. apply por_assoc.
  - rewrite F4, F3, F2, F1. by rewrite orb_assoc.
  - intros attr.
    destruct (G1 attr) as (ma & mb & Ea & Eb & Eab').
    destruct (G2 attr) as (mb' & mc & Eb' & Ec & Ebc').
    destruct (G3 attr) as (mab & mc' & Eab'' & Ec' & ->).
    destruct (G4 attr) as (ma' & mbc & Ea' & Ebc'' & ->).
    f_equal.
    assert (mb' = mb) by congruence. assert (mc' = mc) by congruence.
    assert (ma' = ma) by congruence.
    assert (mab = mb ∪ ma) by congruence.
    assert (mbc = mc ∪ mb) by congruence.
    subst. by rewrite (assoc_L (∪)).
Qed.

Lemma add_badge_assoc_witness :
  ∃ ab bc abc,
    __add__ badge_a (OBadge badge_b) = Ok ab
    ∧ __add__ badge_b (OBadge badge_c) = Ok bc
    ∧ __add__ ab (OBadge badge_c) = Ok abc
    ∧ __add__ badge_a (OBadge bc) = Ok abc.
Proof.
  apply (add_badge_assoc badge_a badge_b badge_c); apply init_maps_defined.
Defined.

(** X19: adding a descriptor whose maps are dictionaries to itself gives
    the same descriptor. *)
Theorem add_badge_idempotent (a : t) :
  maps_defined a → __add__ a (OBadge a) = Ok a.
Proof.
  intros Ha.
  destruct (add_badge_spec a a Ha Ha) as (c & -> & _ & L & D & F & G).
  f_equal. apply badge_ext.
  - by rewrite L, por_diag.
  - by rewrite D, por_diag.
  - by rewrite F, orb_diag.
  - intros attr. destruct (G attr) as (m & m' & E & E' & ->).
    rewrite E. f_equal. assert (m' = m) by congruence. subst.
    by rewrite (idemp_L (∪)).
Qed.

Lemma add_badge_idempotent_witness : __add__ badge_b (OBadge badge_b) = Ok badge_b.
Proof. apply (add_badge_idempotent badge_b). apply init_maps_defined. Defined.

Lemma img_Ok_inv (self : t) (ia aa : AttrDict) (light : option bool)
    (e : element) :
  img self ia aa light = Ok e →
  Some (img_attrs e) = (if is_dict ia then ia else image_attributes self)
  ∧ is_anchor e
    = truthy_attrs (if is_dict aa then aa else anchor_attributes self)
  ∧ img_src e
    = if default (default_img_light self) light
      then src_light self
      else por (src_dark self) (src_light self).
Proof.
  unfold img. cbn [getattr].
  destruct (if is_dict ia then ia else image_attributes self) as [m|];
    cbn [html_img]; [|discriminate].
  case_bool_decide; cbn [mbind result_bind]; [discriminate|].
  destruct (truthy_attrs (if is_dict aa then aa else anchor_attributes self));
    cbn [negb]; intros [= <-]; cbn [img_src img_attrs is_anchor];
    by destruct light as [[]|].
Qed.

(** X20: an attribute dictionary passed to [img] replaces the stored one,
    it is not merged with it: the image carries exactly the dictionary
    passed, or the stored one when none is passed; and the image is
    wrapped in an anchor exactly when the anchor dictionary in force is
    not empty, so that an empty dictionary passed removes the anchor. *)
Theorem img_overrides_replace (self : t) (ia aa : AttrDict)
    (light : option bool) (e : element) :
  img self ia aa light = Ok e →
  Some (img_attrs e) = (if is_dict ia then ia else image_attributes self)
  ∧ is_anchor e
    = truthy_attrs (if is_dict aa then aa else anchor_attributes self).
Proof.
  intros Himg. destruct (img_Ok_inv self ia aa light e Himg) as (Ha & Hb & _).
  by split.
Qed.

Lemma img_overrides_replace_witness :
  Some (img_attrs (Img (PStr "https://b.example/dark.svg") width_only))
  = Some width_only
  ∧ is_anchor (Img (PStr "https://b.example/dark.svg") width_only)
    = truthy_attrs (Some ∅).
Proof.
  apply (img_overrides_replace badge_b (Some width_only) (Some ∅)
           (Some false)).
  vm_compute. reflexivity.
Defined.

(** X21: the source of the image [img] returns is the light URL when light
    is preferred, and else the dark URL if the descriptor has one, the
    light URL if not; the [light] argument, when given, decides the
    preference and the stored flag is not read. *)
Theorem img_source (self : t) (ia aa : AttrDict)
    (light : option bool) (e : element) :
  img self ia aa light = Ok e →
  img_src e
  = if default (default_img_light self) light
    then src_light self
    else por (src_dark self) (src_light self).
Proof. intros Himg. by destruct (img_Ok_inv self ia aa light e Himg) as (_ & _ & H). Qed.

Lemma img_source_witness :
  img_src (Img (PStr "https://b.example/dark.svg") width_only)
  = if default (default_img_light badge_b) (Some false)
    then src_light badge_b
    else por (src_dark badge_b) (src_light badge_b).
Proof.
  apply (img_source badge_b (Some width_only) (Some ∅) (Some false)).
  vm_compute. reflexivity.
Defined.

(** X22: for a descriptor without a dark URL, [picture] puts the URL that
    [img] shows in both of its sources, and it is wrapped in an anchor
    exactly when the image of [img] is. *)
Theorem picture_light_only (self : t) (ia aa pa la da : AttrDict)
    (light dl : option bool) (e : element) :
  truthy (src_dark self) = false →
  img self ia aa light = Ok e →
  match picture_of (picture self ia aa pa la da dl) with
  | PictureColorScheme l d _ _ _ _ _ => l = img_src e ∧ d = img_src e
  end
  ∧ rendered_is_anchor (picture self ia aa pa la da dl) = is_anchor e.
Proof.
  intros Hd Himg.
  destruct (img_Ok_inv self ia aa light e Himg) as (_ & Ha & Hsrc).
  unfold por in Hsrc. rewrite Hd in Hsrc.
  assert (Hs : img_src e = src_light self)
    by (by destruct (default (default_img_light self) light)).
  unfold picture. cbn [getattr]. rewrite Ha.
  destruct (truthy_attrs (if is_dict aa then aa else anchor_attributes self));
    cbn [negb picture_of rendered_is_anchor]; unfold por; rewrite Hd, Hs;
    done.
Qed.

Lemma picture_light_only_witness :
  match picture_of (picture badge_a None None None None None None) with
  | PictureColorScheme l d _ _ _ _ _ =>
      l = img_src (Img (PStr "https://a.example/light.svg") {["alt" := PStr "a"]})
      ∧ d = img_src (Img (PStr "https://a.example/light.svg") {["alt" := PStr "a"]})
  end
  ∧ rendered_is_anchor (picture badge_a None None None None None None)
    = is_anchor (Img (PStr "https://a.example/light.svg") {["alt" := PStr "a"]}).
Proof.
  apply (picture_light_only badge_a None None None None None None None).
  - reflexivity.
  - vm_compute. reflexivity.
Defined.

End BadgeMore.
